(** * Job-ad extraction agent: the tools of [src/agent] and their properties

    A shallow embedding of the agent's tools (todo list, skill extraction,
    skill reconciliation, requirement/responsibility extraction, G-Eval
    scoring).  Every tool reads the conversation state and returns a
    [Command] carrying a state update and one log message, or raises.

    Conventions of the embedding
    - Python [str] is [string]; labels are taken to be ASCII text (the
      Unicode case mapping of [str.lower] is outside the model).
    - Python [set] is stdpp's [gset string]; [list(s)] and iteration over a
      set are [elements s].  Python leaves that order unspecified, so the
      properties below are stated through membership, not positions.
    - Python [float] is IEEE 754 binary64, given by the Standard Library's
      [spec_float] with a precision of 53 bits: [/] is the correctly rounded
      [SFdiv], [float(n)] the correctly rounded [binary_normalize].
    - A key of the state dict that is absent (or holds a falsy value) is
      [None]; a pydantic model is truthy whenever it is present.
    - The language-model collaborators are arbitrary functions, collected in
      the record [World].  A collaborator call that fails (an unreachable
      model, an unreadable corpus file) raises in the source; such runs are
      outside the embedding, which follows the tools on the runs in which
      the collaborators answer. *)

From Stdlib Require Import Ascii ZArith Floats.SpecFloat.
From stdpp Require Import base option list gmap sets strings pretty.

(** ** Python string builtins used by the tools *)
Module PyStr.

Abbreviation chars := String.list_ascii_of_string.

(** [str.isspace] on one ASCII character: TAB..CR, FS..US and SPACE. *)
Definition is_space (c : Ascii.ascii) : bool :=
  let n := Ascii.nat_of_ascii c in
  ((9 <=? n) && (n <=? 13)) || ((28 <=? n) && (n <=? 32)).

Definition is_upper (c : Ascii.ascii) : bool :=
  let n := Ascii.nat_of_ascii c in (65 <=? n) && (n <=? 90).

Definition lower_char (c : Ascii.ascii) : Ascii.ascii :=
  if is_upper c then Ascii.ascii_of_nat (Ascii.nat_of_ascii c + 32) else c.

(** [s.lower()] *)
Fixpoint lower (s : string) : string :=
  match s with
  | EmptyString => EmptyString
  | String c s' => String (lower_char c) (lower s')
  end.

(** [s.split()] with no separator: the maximal runs of non-whitespace.
    [cur] is the word being read. *)
Fixpoint split_go (cur : string) (s : string) : list string :=
  match s with
  | EmptyString => if decide (cur = "") then [] else [cur]
  | String c s' =>
      if is_space c
      then (if decide (cur = "") then split_go "" s' else cur :: split_go "" s')
      else split_go (cur +:+ String c "") s'
  end.

Definition split (s : string) : list string := split_go "" s.

(** [sep.join(l)] *)
Fixpoint join (sep : string) (l : list string) : string :=
  match l with
  | [] => ""
  | [w] => w
  | w :: l' => w +:+ sep +:+ join sep l'
  end.

(** [sub in s] *)
Fixpoint contains (sub s : string) : bool :=
  String.prefix sub s ||
  match s with
  | EmptyString => false
  | String _ s' => contains sub s'
  end.

Fixpoint lstrip (s : string) : string :=
  match s with
  | String c s' => if is_space c then lstrip s' else s
  | EmptyString => EmptyString
  end.

Fixpoint rstrip (s : string) : string :=
  match s with
  | EmptyString => EmptyString
  | String c s' =>
      match rstrip s' with
      | EmptyString => if is_space c then EmptyString else String c EmptyString
      | r => String c r
      end
  end.

(** [s.strip()] *)
Definition strip (s : string) : string := rstrip (lstrip s).

(** The line feed character, written [\n] in the source. *)
Definition nl : string := String (Ascii.ascii_of_nat 10) EmptyString.

(** [str(n)] for a non-negative [int] *)
Definition of_nat (n : nat) : string := pretty n.

(** Every whitespace character of [s] is one SPACE that stands between
    two non-whitespace characters: [prev] tells whether the position just
    before is the start of the string or a whitespace character. *)
Fixpoint collapsed_go (prev : bool) (s : string) : bool :=
  match s with
  | EmptyString => negb prev
  | String c s' =>
      if is_space c
      then Ascii.eqb c " "%char && negb prev && collapsed_go true s'
      else collapsed_go false s'
  end.

Definition whitespace_collapsed (s : string) : bool :=
  match s with
  | EmptyString => true
  | _ => collapsed_go true s
  end.

(** No character of [s] is an upper-case letter. *)
Fixpoint lower_cased (s : string) : bool :=
  match s with
  | EmptyString => true
  | String c s' => negb (is_upper c) && lower_cased s'
  end.

(** A word: non-empty and free of whitespace. *)
Definition is_word (s : string) : Prop :=
  s ≠ "" ∧ ∀ c, c ∈ chars s → is_space c = false.

End PyStr.

(** ** Python floats *)
Module PyFloat.

Definition prec : Z := 53.
Definition emax : Z := 1024.

Definition float : Type := spec_float.


(** [float(n)] for an [int] *)
Definition of_int (n : Z) : float := binary_normalize prec emax n 0 false.

(** [x / y] *)
Definition truediv (x y : float) : float := SFdiv prec emax x y.




End PyFloat.

(** ** [state.py]: the data model *)
Module State.

Record SkillTypes := {
  hard : list string;
  soft : list string;
  both : list string
}.

Inductive Status := pending | in_progress | completed.

Record Todo := { content : string; status : Status }.

Record JobAdContent := { ad_text : string }.

Record ToolMessage := { msg_content : string; tool_call_id : string }.

(** Output schema of the judging collaborator ([EvalResults] of
    [evaluation.py]); it is declared here because the update envelope
    carries it. *)
Record EvalResults := { reasoning : list string; score : list PyFloat.float }.

(** One value of the [result_evaluation] dict: the skills entry is a list
    of one-key dicts [{name: {reasoning, score}}], the others are a
    [{reasoning, score}] dict. *)
Inductive EvalEntry :=
| SkillEntries (l : list (string * EvalResults))
| TaskEntry (r : EvalResults).

Record ReActConversationState := {
  user_id : string;
  messages : list ToolMessage;
  skills : option SkillTypes;
  job_ads : option (list JobAdContent);
  todos : option (list Todo);
  requirements : option (list string);
  responsibilities : option (list string);
  evaluation : option (gmap string EvalEntry)
}.

Definition status_str (s : Status) : string :=
  match s with
  | pending => "pending"
  | in_progress => "in_progress"
  | completed => "completed"
  end.

End State.

(** ** The update envelope returned by every tool *)
Module Protocol.
Import State.

Inductive exn :=
| UnboundLocalError (name : string)
| KeyError (key : string).

Inductive result (A : Type) :=
| Ok (a : A)
| Raise (e : exn).
Arguments Ok {A} a.
Arguments Raise {A} e.

#[global] Instance result_ret : MRet result := λ A a, Ok a.
#[global] Instance result_bind : MBind result := λ A B f m,
  match m with
  | Ok a => f a
  | Raise e => Raise e
  end.
#[global] Instance result_fmap : FMap result := λ A B f m,
  match m with
  | Ok a => Ok (f a)
  | Raise e => Raise e
  end.

(** [Command(update={...})]: a key that is not in the dict is [None].
    The value under ["skills"] is the dict dumped from a model, which is
    identified with that model, or the empty dict [{}] (the inner [None]). *)
Record Command := {
  u_skills : option (option SkillTypes);
  u_requirements : option (list string);
  u_responsibilities : option (list string);
  u_evaluation : option (gmap string EvalEntry);
  u_messages : list ToolMessage
}.

Definition only_messages (ms : list ToolMessage) : Command :=
  {| u_skills := None; u_requirements := None; u_responsibilities := None;
     u_evaluation := None; u_messages := ms |}.

(** Modelled from the spec: the driver that applies a tool's patch to the
    shared state is not part of the repository.  Per the spec's merge
    policy the message log is appended to and every other field present
    in the patch replaces the stored value. *)
Definition apply_update (st : ReActConversationState) (c : Command)
  : ReActConversationState :=
  {| user_id := user_id st;
     messages := messages st ++ u_messages c;
     skills := match u_skills c with Some v => v | None => skills st end;
     job_ads := job_ads st;
     todos := todos st;
     requirements :=
       match u_requirements c with Some v => Some v | None => requirements st end;
     responsibilities :=
       match u_responsibilities c with Some v => Some v | None => responsibilities st end;
     evaluation :=
       match u_evaluation c with Some v => Some v | None => evaluation st end |}.

(** Run a tool and let the driver apply its patch. *)
Definition step (tool : ReActConversationState → string → result Command)
    (st : ReActConversationState) (id : string)
  : result ReActConversationState :=
  c ← tool st id; mret (apply_update st c).

End Protocol.

(** ** The external collaborators *)
Module Collab.
Import State.

Record Extraction := {
  extraction_class : string;
  extraction_text : string;
  attributes : list (string * string)
}.

Record ExampleData := { ex_text : string; ex_extractions : list Extraction }.

Inductive Prompt := SOFT_EXTRACTION_PROMPT | HARD_EXTRACTION_PROMPT.

(** The keyword arguments with which the G-Eval template is rendered; the
    rubric (criterion, steps, format instructions) is the same constant
    text in every request. *)
Record GEvalRequest := {
  rq_job_ad : string;
  rq_extracted_outputs : list string;
  rq_task : string;
  rq_score_min : Z;
  rq_score_max : Z
}.

Record World := {
(** content of [soft_skills.json] and [hard_skills.json] *)
softskills_json : list ExampleData;
hardskills_json : list ExampleData;
(** [lx.extract(text, prompt, examples, ...).extractions] *)
lx_extract : string → Prompt → list ExampleData → list Extraction;
(** [chain.invoke(ad).responsibilities] and [.requirements] *)
chain_responsibilities : string → list string;
chain_requirements : string → list string;
(** [llm_with_struct_output.invoke(formatted_prompt)] *)
llm_invoke : GEvalRequest → EvalResults
  }.

End Collab.

(** ** [skill_utils.py] *)
Module SkillUtils.
Import State Protocol Collab.

(** [set(l)] and [list(s)] *)
Definition py_set (l : list string) : gset string := list_to_set l.
Definition py_list (s : gset string) : list string := elements s.

(** [s.remove(x)]: raises [KeyError] when [x] is not a member. *)
Definition set_remove (x : string) (s : gset string) : result (gset string) :=
  if decide (x ∈ s) then Ok (s ∖ {[x]}) else Raise (KeyError x).

(** Step 3 of both extraction tools: one [ExampleData] per extraction of
    every example record. *)
Definition build_examples (json : list ExampleData) : list ExampleData :=
  flat_map
    (λ example,
       map (λ extraction,
              {| ex_text := ex_text example; ex_extractions := [extraction] |})
           (ex_extractions example))
    json.

(** [" ".join(skill.split()).lower() if "_" in skill else skill.lower()] *)
Definition normalise (skill : string) : string :=
  if PyStr.contains "_" skill
  then PyStr.lower (PyStr.join " " (PyStr.split skill))
  else PyStr.lower skill.

(** The variables that survive an iteration of the loop over the
    advertisements: [updated_dictionary] starts as [{}] (here [None]);
    the list of updated skills is unbound until the guarded block runs. *)
Record ExtractVars := {
  updated_dictionary : option SkillTypes;
  updated_skills : option (list string)
}.

Definition extract_message (n : nat) (kind id : string) : ToolMessage :=
  {| msg_content :=
       "Successfully extracted " +:+ PyStr.of_nat n +:+ " new " +:+ kind +:+
       " skills. State updated under the 'skills' key.";
     tool_call_id := id |}.

Definition no_job_ads (id : string) : Command :=
  only_messages
    [ {| msg_content := "No job_ads were found in the state!"; tool_call_id := id |} ].

Section WithWorld.
Context (w : World).

Definition soft_body (state : ReActConversationState) (vars : ExtractVars)
    (ad : string) : ExtractVars :=
  let results :=
    lx_extract w ad SOFT_EXTRACTION_PROMPT (build_examples (softskills_json w)) in
  let softskills := map extraction_class results in
  let softskills_normalised := map normalise softskills in
  match skills state with
  | Some current_skill_state =>
      let current_softskills := soft current_skill_state in
      let updated_softskills :=
        py_list (py_set (current_softskills ++ softskills_normalised)) in
      {| updated_dictionary :=
           Some {| hard := hard current_skill_state;
                   soft := updated_softskills;
                   both := both current_skill_state |};
         updated_skills := Some updated_softskills |}
  | None => vars
  end.

Definition extract_soft_skills (state : ReActConversationState)
    (tool_call_id : string) : result Command :=
  let job_ads := default [] (job_ads state) in
  match job_ads with
  | [] => Ok (no_job_ads tool_call_id)
  | _ =>
      let advertisements := map ad_text job_ads in
      let vars :=
        fold_left (soft_body state) advertisements
          {| updated_dictionary := None; updated_skills := None |} in
      match updated_skills vars with
      | None => Raise (UnboundLocalError "updated_softskills")
      | Some updated_softskills =>
          Ok {| u_skills := Some (updated_dictionary vars);
                u_requirements := None; u_responsibilities := None;
                u_evaluation := None;
                u_messages :=
                  [extract_message (length updated_softskills) "soft" tool_call_id] |}
      end
  end.

Definition hard_body (state : ReActConversationState) (vars : ExtractVars)
    (ad : string) : ExtractVars :=
  let results :=
    lx_extract w ad HARD_EXTRACTION_PROMPT (build_examples (hardskills_json w)) in
  let hardskills := map extraction_class results in
  let hardskills_normalised := map normalise hardskills in
  match skills state with
  | Some current_skill_state =>
      let current_hardskills := hard current_skill_state in
      let updated_hardskills :=
        py_list (py_set (current_hardskills ++ hardskills_normalised)) in
      {| updated_dictionary :=
           Some {| hard := updated_hardskills;
                   soft := soft current_skill_state;
                   both := both current_skill_state |};
         updated_skills := Some updated_hardskills |}
  | None => vars
  end.

Definition extract_hard_skills (state : ReActConversationState)
    (tool_call_id : string) : result Command :=
  let job_ads := default [] (job_ads state) in
  match job_ads with
  | [] => Ok (no_job_ads tool_call_id)
  | _ =>
      let advertisements := map ad_text job_ads in
      let vars :=
        fold_left (hard_body state) advertisements
          {| updated_dictionary := None; updated_skills := None |} in
      match updated_skills vars with
      | None => Raise (UnboundLocalError "updated_hardskills")
      | Some updated_hardskills =>
          Ok {| u_skills := Some (updated_dictionary vars);
                u_requirements := None; u_responsibilities := None;
                u_evaluation := None;
                u_messages :=
                  [extract_message (length updated_hardskills) "hard" tool_call_id] |}
      end
  end.

End WithWorld.

(** The loop [for skill in intersection] of [check_for_bothskills]; its
    variables are [both_skills], [hard_set] and [soft_set]. *)
Fixpoint move_loop (intersection : list string)
    (vars : list string * gset string * gset string)
  : result (list string * gset string * gset string) :=
  match intersection with
  | [] => Ok vars
  | skill :: rest =>
      let '(both_skills, hard_set, soft_set) := vars in
      let both_skills := both_skills ++ [skill] in
      hard_set ← set_remove skill hard_set;
      soft_set ← set_remove skill soft_set;
      move_loop rest (both_skills, hard_set, soft_set)
  end.

Definition both_message (n : nat) (id : string) : ToolMessage :=
  {| msg_content :=
       "Found " +:+ PyStr.of_nat n +:+
       " matching skills when validated HARD and SOFT skills. State updated under the 'skills' key.";
     tool_call_id := id |}.

Definition check_for_bothskills (state : ReActConversationState)
    (tool_call_id : string) : result Command :=
  match skills state with
  | None => Raise (UnboundLocalError "hard_skills")
  | Some existing_skill_state =>
      let hard_skills := hard existing_skill_state in
      let soft_skills := soft existing_skill_state in
      let hard_set := py_set hard_skills in
      let soft_set := py_set soft_skills in
      let both_skills := [] in
      if bool_decide (0 < size (hard_set ∩ soft_set)) then
        let intersection := hard_set ∩ soft_set in
        '(both_skills, hard_set, soft_set) ←
          move_loop (py_list intersection) (both_skills, hard_set, soft_set);
        Ok {| u_skills :=
                Some (Some {| hard := py_list hard_set;
                              soft := py_list soft_set;
                              both := both_skills |});
              u_requirements := None; u_responsibilities := None;
              u_evaluation := None;
              u_messages := [both_message (length both_skills) tool_call_id] |}
      else
        Ok (only_messages
              [ {| msg_content :=
                     "Hard & Soft skills were validated, all values are unique!";
                   tool_call_id := tool_call_id |} ])
  end.

End SkillUtils.

(** ** [todo_utils.py] *)
Module TodoUtils.
Import State Protocol.

Definition status_emoji (s : Status) : string :=
  match s with
  | pending => "⏳"
  | in_progress => "🔄"
  | completed => "✅"
  end.

(** [enumerate(l, start)] *)
Fixpoint enumerate {A} (l : list A) (start : nat) : list (nat * A) :=
  match l with
  | [] => []
  | x :: l' => (start, x) :: enumerate l' (S start)
  end.

(** The f-string of the loop body. *)
Definition todo_line (i : nat) (todo : Todo) : string :=
  let emoji := status_emoji (status todo) in
  PyStr.of_nat i +:+ ". " +:+ emoji +:+ " " +:+ content todo +:+ ": " +:+
  status_str (status todo) +:+ PyStr.nl.

(** One iteration of the loop: the f-string is assigned to [result]. *)
Definition read_body (result : string) (it : nat * Todo) : string :=
  todo_line (fst it) (snd it).

Definition read_todos (state : ReActConversationState) (tool_call_id : string)
  : string :=
  let todos := default [] (todos state) in
  match todos with
  | [] => "Currently, there aren't any todos in the list."
  | _ =>
      let result := "Current TODO list:" +:+ PyStr.nl in
      let result := fold_left read_body (enumerate todos 1) result in
      PyStr.strip result
  end.

End TodoUtils.

(** ** [req_and_res.py] *)
Module ReqAndRes.
Import State Protocol Collab.

Definition extracted_message (n : nat) (id : string) : ToolMessage :=
  {| msg_content :=
       PyStr.of_nat n +:+ " were extracted from the job advertisment!";
     tool_call_id := id |}.

Section WithWorld.
Context (w : World).

(** Both loops assign the collaborator's answer for the current
    advertisement to the dict entry and to the local variable. *)
Definition extract_responsibilities (state : ReActConversationState)
    (tool_call_id : string) : result Command :=
  let job_ads := default [] (job_ads state) in
  match job_ads with
  | [] => Ok (SkillUtils.no_job_ads tool_call_id)
  | _ =>
      let advertisements := map ad_text job_ads in
      let responsiblity_dict :=
        fold_left (λ _ ad, Some (chain_responsibilities w ad)) advertisements None in
      match responsiblity_dict with
      | None => Raise (KeyError "responsibilities")
      | Some responsibilities =>
          Ok {| u_skills := None; u_requirements := None;
                u_responsibilities := Some responsibilities;
                u_evaluation := None;
                u_messages :=
                  [extracted_message (length responsibilities) tool_call_id] |}
      end
  end.

Definition extract_requirements (state : ReActConversationState)
    (tool_call_id : string) : result Command :=
  let job_ads := default [] (job_ads state) in
  match job_ads with
  | [] => Ok (SkillUtils.no_job_ads tool_call_id)
  | _ =>
      let advertisements := map ad_text job_ads in
      let requirements_dict :=
        fold_left (λ _ ad, Some (chain_requirements w ad)) advertisements None in
      match requirements_dict with
      | None => Raise (KeyError "requirements")
      | Some requirements =>
          Ok {| u_skills := None; u_requirements := Some requirements;
                u_responsibilities := None;
                u_evaluation := None;
                u_messages :=
                  [extracted_message (length requirements) tool_call_id] |}
      end
  end.

End WithWorld.

End ReqAndRes.

(** ** [evaluation.py] *)
Module Evaluation.
Import State Protocol Collab.

Definition eval_criteria : string := "Correctness".
Definition score_range : Z * Z := (0, 10)%Z.
Definition tasks : list string := ["skills"; "requirements"; "responsibilities"].

(** [[score / score_range[1] for score in scores]] *)
Definition normalise_scores (scores : list PyFloat.float) : list PyFloat.float :=
  map (λ score, PyFloat.truediv score (PyFloat.of_int (snd score_range))) scores.

(** [state.get(task)] for the two list-valued tasks. *)
Definition state_get_list (state : ReActConversationState) (task : string)
  : option (list string) :=
  if decide (task = "requirements") then requirements state
  else if decide (task = "responsibilities") then responsibilities state
  else None.

Section WithWorld.
Context (w : World).

(** Render the prompt, invoke the judge, normalise the scores. *)
Definition judge (ad : string) (outputs : list string) (task : string)
  : EvalResults :=
  let formatted_prompt :=
    {| rq_job_ad := ad; rq_extracted_outputs := outputs; rq_task := task;
       rq_score_min := fst score_range; rq_score_max := snd score_range |} in
  let result := llm_invoke w formatted_prompt in
  let reasoning := reasoning result in
  let scores := score result in
  let scores := normalise_scores scores in
  {| reasoning := reasoning; score := scores |}.

(** The loop over [zip(all_skills_outputs, ["hard", "soft", "both"])]. *)
Definition skill_body (ad task : string)
    (skill_results : list (string * EvalResults))
    (it : list string * string) : list (string * EvalResults) :=
  let '(skills, name) := it in
  match skills with
  | [] => skill_results
  | _ => skill_results ++ [(name, judge ad skills task)]
  end.

(** The body of the loop over [tasks]. *)
Definition task_body (state : ReActConversationState) (ad : string)
    (result_evaluation : gmap string EvalEntry) (task : string)
  : gmap string EvalEntry :=
  if decide (task = "skills") then
    match skills state with
    | Some state_values =>
        let all_skills_outputs :=
          [hard state_values; soft state_values; both state_values] in
        let skill_results :=
          fold_left (skill_body ad task)
            (zip all_skills_outputs ["hard"; "soft"; "both"]) [] in
        <[task := SkillEntries skill_results]> result_evaluation
    | None => result_evaluation
    end
  else
    match state_get_list state task with
    | Some ((_ :: _) as state_values) =>
        <[task := TaskEntry (judge ad state_values task)]> result_evaluation
    | _ => result_evaluation
    end.

Definition ad_body (state : ReActConversationState)
    (result_evaluation : gmap string EvalEntry) (ad : string)
  : gmap string EvalEntry :=
  fold_left (task_body state ad) tasks result_evaluation.

Definition evaluate_correctness (state : ReActConversationState)
    (tool_call_id : string) : result Command :=
  let job_ads := default [] (job_ads state) in
  match job_ads with
  | [] => Ok (SkillUtils.no_job_ads tool_call_id)
  | _ =>
      let advertisements := map ad_text job_ads in
      let result_evaluation := fold_left (ad_body state) advertisements ∅ in
      Ok {| u_skills := None; u_requirements := None;
            u_responsibilities := None;
            u_evaluation := Some result_evaluation;
            u_messages :=
              [ {| msg_content :=
                     "G-Eval for creterion: " +:+ eval_criteria +:+
                     " was conducted successfuly!";
                   tool_call_id := tool_call_id |} ] |}
  end.

End WithWorld.

End Evaluation.

(** ** Sample data and the readings of the properties *)
Module Samples.
Import State Protocol Collab.

Definition skills0 : SkillTypes :=
  {| hard := ["python"; "sql"];
     soft := ["sql"; "communication"];
     both := ["teamwork"] |}.

Definition state0 : ReActConversationState :=
  {| user_id := "user-1";
     messages := [];
     skills := Some skills0;
     job_ads := Some [ {| ad_text := "first ad" |}; {| ad_text := "second ad" |} ];
     todos := Some [ {| content := "extract skills"; status := pending |};
                     {| content := "evaluate"; status := completed |} ];
     requirements := Some ["3 years of experience"];
     responsibilities := None;
     evaluation := None |}.

(** The same state before any skill set was stored. *)
Definition state_no_skills : ReActConversationState :=
  {| user_id := "user-1";
     messages := [];
     skills := None;
     job_ads := Some [ {| ad_text := "first ad" |} ];
     todos := None;
     requirements := None;
     responsibilities := None;
     evaluation := None |}.

(** A state with a skill set and requirements but no advertisement. *)
Definition state_no_ads : ReActConversationState :=
  {| user_id := "user-1";
     messages := [];
     skills := Some skills0;
     job_ads := Some [];
     todos := None;
     requirements := Some ["3 years of experience"];
     responsibilities := Some ["lead the team"];
     evaluation := None |}.

Definition label (class : string) : Extraction :=
  {| extraction_class := class; extraction_text := class; attributes := [] |}.

(** Collaborators whose answers depend on the advertisement: the first ad
    mentions Python, every other ad leadership; the judge quotes the ad it
    was shown and rates every item 8. *)
Definition world0 : World :=
  {| softskills_json := [];
     hardskills_json := [];
     lx_extract := λ ad _ _,
       if decide (ad = "first ad") then [label "Python"] else [label "Leadership"];
     chain_responsibilities := λ ad, ["duties of " +:+ ad];
     chain_requirements := λ ad, ["requirements of " +:+ ad];
     llm_invoke := λ rq,
       {| reasoning := map (λ _, "judged against " +:+ rq_job_ad rq)
                           (rq_extracted_outputs rq);
          score := map (λ _, PyFloat.of_int 8) (rq_extracted_outputs rq) |} |}.

(** An extraction collaborator that reports a label with a doubled blank
    and no underscore. *)
Definition world1 : World :=
  {| softskills_json := [];
     hardskills_json := [];
     lx_extract := λ _ _ _, [label "Team  Work"];
     chain_responsibilities := λ _, [];
     chain_requirements := λ _, [];
     llm_invoke := λ _, {| reasoning := []; score := [] |} |}.

End Samples.

Module Readings.
Import State Protocol Collab.

(** "Every element present in [both] before a reconciliation call is still
    present in [both] after that call", at one state. *)
Definition both_accumulates (st : ReActConversationState) (id : string) : Prop :=
  ∀ S st' S',
    skills st = Some S → both S ≠ [] →
    step SkillUtils.check_for_bothskills st id = Ok st' →
    skills st' = Some S' →
    ∀ s, s ∈ both S → s ∈ both S'.

(** The normalised labels that an extraction tool obtains from one
    advertisement. *)
Definition soft_labels (w : World) (ad : string) : list string :=
  map SkillUtils.normalise
    (map extraction_class
       (lx_extract w ad SOFT_EXTRACTION_PROMPT
          (SkillUtils.build_examples (softskills_json w)))).

Definition hard_labels (w : World) (ad : string) : list string :=
  map SkillUtils.normalise
    (map extraction_class
       (lx_extract w ad HARD_EXTRACTION_PROMPT
          (SkillUtils.build_examples (hardskills_json w)))).

(** "The labels extracted from every supplied job ad are unioned into the
    category's set", at one state, for the soft skills. *)
Definition labels_of_every_ad_kept (w : World) (st : ReActConversationState)
    (id : string) : Prop :=
  ∀ st' S' ad x,
    step (SkillUtils.extract_soft_skills w) st id = Ok st' →
    skills st' = Some S' →
    ad ∈ default [] (job_ads st) →
    x ∈ soft_labels w (ad_text ad) →
    x ∈ soft S'.

(** What one call of the extraction tool [tool] does, and a second call
    right after it, when [tool]
    maintains the category [field] and obtains [labels] from the last
    advertisement: the category becomes the duplicate-free union of its old
    content and [labels], the other two categories are kept, and a second
    call right after the first changes neither the members nor their
    number. *)
Definition unions_labels
    (tool : ReActConversationState → string → result Command)
    (field other1 other2 : SkillTypes → list string) (labels : list string)
    (st : ReActConversationState) (id1 id2 : string) (S : SkillTypes) : Prop :=
  ∃ st1 S1 st2 S2,
    step tool st id1 = Ok st1 ∧ skills st1 = Some S1 ∧
    step tool st1 id2 = Ok st2 ∧ skills st2 = Some S2 ∧
    (∀ x, x ∈ field S1 ↔ x ∈ field S ∨ x ∈ labels) ∧
    NoDup (field S1) ∧
    other1 S1 = other1 S ∧ other2 S1 = other2 S ∧
    field S2 ≡ₚ field S1 ∧
    length (field S2) = length (field S1).

(** "Every stored label is whitespace-collapsed and lower-cased", at one
    state, for the soft skills. *)
Definition labels_normalised (w : World) (st : ReActConversationState)
    (id : string) : Prop :=
  ∀ st' S' x,
    step (SkillUtils.extract_soft_skills w) st id = Ok st' →
    skills st' = Some S' →
    x ∈ soft S' →
    PyStr.whitespace_collapsed x = true ∧ PyStr.lower_cased x = true.

(** The entry that one pass over the tasks writes under [key] for the
    advertisement [ad], if it writes one. *)
Definition skill_results (w : World) (ad : string) (S : SkillTypes)
  : list (string * EvalResults) :=
  fold_left (Evaluation.skill_body w ad "skills")
    (zip [hard S; soft S; both S] ["hard"; "soft"; "both"]) [].

Definition entry_for (w : World) (st : ReActConversationState) (ad key : string)
  : option EvalEntry :=
  if decide (key = "skills") then
    (λ S, SkillEntries (skill_results w ad S)) <$> skills st
  else
    match Evaluation.state_get_list st key with
    | Some ((_ :: _) as l) => Some (TaskEntry (Evaluation.judge w ad l key))
    | _ => None
    end.

(** The [{reasoning, score}] dicts held by one entry of the evaluation. *)
Definition entry_results (e : EvalEntry) : list EvalResults :=
  match e with
  | SkillEntries l => map snd l
  | TaskEntry r => [r]
  end.

(** "The evaluation holds an entry for every (job ad, category) pair", at
    one state, for the requirements. *)
Definition one_entry_per_pair (w : World) (st : ReActConversationState)
    (id : string) : Prop :=
  ∀ c m ad reqs,
    Evaluation.evaluate_correctness w st id = Ok c →
    u_evaluation c = Some m →
    ad ∈ default [] (job_ads st) →
    requirements st = Some reqs → reqs ≠ [] →
    ∃ key, m !! key
           = Some (TaskEntry (Evaluation.judge w (ad_text ad) reqs "requirements")).

End Readings.

(** ** [todo_utils.py]: the tools that write the todo list and the ads *)
Module TodoUpdates.
Import State Protocol.

(** [Command(update={...})] with the two keys that only [write_todos] and
    [update_content] write; [common] holds the keys shared with the other
    tools. *)
Record FullCommand := {
  common : Command;
  u_todos : option (list Todo);
  u_job_ads : option (list JobAdContent)
}.

(** Modelled from the spec: the driver's patch application for the todo
    list and the advertisements, which are replaced wholesale like every
    field but the message log. *)
Definition apply_full_update (st : ReActConversationState) (c : FullCommand)
  : ReActConversationState :=
  let st' := apply_update st (common c) in
  {| user_id := user_id st';
     messages := messages st';
     skills := skills st';
     job_ads := match u_job_ads c with Some v => Some v | None => job_ads st' end;
     todos := match u_todos c with Some v => Some v | None => todos st' end;
     requirements := requirements st';
     responsibilities := responsibilities st';
     evaluation := evaluation st' |}.

Section WithStr.
(** [str] of a list of dicts, as the f-strings of the two tools render it.
    It depends on the key order of each dict and is left open. *)
Context (str_of_todos : list Todo → string).
Context (str_of_job_ads : list JobAdContent → string).

Definition write_todos (todos : list Todo) (tool_call_id : string) : FullCommand :=
  {| common :=
       only_messages
         [ {| msg_content := "Updated todo list to " +:+ str_of_todos todos;
              tool_call_id := tool_call_id |} ];
     u_todos := Some todos;
     u_job_ads := None |}.

Definition update_content (job_ads : list JobAdContent) (tool_call_id : string)
  : FullCommand :=
  {| common :=
       only_messages
         [ {| msg_content :=
                "The job_ad was successfuly updated!" +:+ PyStr.nl +:+
                str_of_job_ads job_ads;
              tool_call_id := tool_call_id |} ];
     u_todos := None;
     u_job_ads := Some job_ads |}.

End WithStr.

End TodoUpdates.

(** ** More sample data *)
Module MoreSamples.
Import State Protocol Collab.

(** An extraction collaborator that reports the class SQL for every ad. *)
Definition world_sql : World :=
  {| softskills_json := [];
     hardskills_json := [];
     lx_extract := λ _ _ _, [Samples.label "SQL"];
     chain_responsibilities := λ _, [];
     chain_requirements := λ _, [];
     llm_invoke := λ rq,
       {| reasoning := map (λ _, "ok") (rq_extracted_outputs rq);
          score := map (λ _, PyFloat.of_int 10) (rq_extracted_outputs rq) |} |}.

End MoreSamples.

(** ** Notions used by the further properties *)
Module Notions.
Import State Protocol Collab.

(** [P] holds of what a call returned, if it returned. *)
Definition on_return {A} (r : result A) (P : A → Prop) : Prop :=
  match r with
  | Ok a => P a
  | Raise _ => True
  end.

(** The patch logs one message, tagged with the identifier of the call. *)
Definition one_message (c : Command) (id : string) : Prop :=
  ∃ m, u_messages c = [m] ∧ tool_call_id m = id.

(** The lists of extracted items that the state holds. *)
Definition state_lists (st : ReActConversationState) : list (list string) :=
  match skills st with
  | Some sk => [hard sk; soft sk; both sk]
  | None => []
  end ++
  match requirements st with Some l => [l] | None => [] end ++
  match responsibilities st with Some l => [l] | None => [] end.

(** The names of the skill sub-types that hold at least one skill, in the
    order in which the evaluation visits them. *)
Definition subtype_names (S : SkillTypes) : list string :=
  (if bool_decide (hard S = []) then [] else ["hard"]) ++
  (if bool_decide (soft S = []) then [] else ["soft"]) ++
  (if bool_decide (both S = []) then [] else ["both"]).

(** The number of extractions in an example corpus. *)
Definition extraction_count (json : list ExampleData) : nat :=
  sum_list (map (λ e, length (ex_extractions e)) json).

End Notions.

(** ** Notions used by the score normalisation *)
Module Scoring.
Import State Protocol Collab.





End Scoring.

(** * Properties *)

Import State Protocol Collab.

(** Run a tool on sample data: name the outcome [x], compute it, and keep
    the case in which the tool returned. *)
Ltac run_sample call x :=
  let H := fresh "Hrun" in
  destruct call as [x|?] eqn:H; vm_compute in H;
  [injection H as <-|discriminate H].

(** ** Skill reconciliation ([check_for_bothskills]) *)
Section Reconciliation.
Import SkillUtils.

Lemma set_remove_member x (X : gset string) :
  x ∈ X → set_remove x X = Ok (X ∖ {[x]}).
Proof. intros Hx. unfold set_remove. by rewrite decide_True. Qed.

(** The loop never raises: it only removes members of the intersection, each
    of them once. *)
Lemma move_loop_ok (l b : list string) (H S : gset string) :
  NoDup l → (∀ x, x ∈ l → x ∈ H ∧ x ∈ S) →
  move_loop l (b, H, S) = Ok (b ++ l, H ∖ list_to_set l, S ∖ list_to_set l).
Proof.
  revert b H S. induction l as [|x l IH]; intros b H S Hnd Hin.
  - cbn [move_loop list_to_set foldr]. by rewrite app_nil_r, !difference_empty_L.
  - apply NoDup_cons in Hnd as [Hx Hnd].
    destruct (Hin x) as [HxH HxS]; [left|].
    cbn [move_loop]. rewrite (set_remove_member _ _ HxH). cbn [mbind result_bind].
    rewrite (set_remove_member _ _ HxS). cbn [mbind result_bind].
    rewrite IH; [|done|].
    + rewrite <- app_assoc. cbn [app list_to_set foldr].
      by rewrite !difference_difference_l_L.
    + intros y Hy. destruct (Hin y) as [? ?]; [by right|].
      assert (y ≠ x) by (intros ->; done).
      split; apply elem_of_difference; split; try done;
        by rewrite elem_of_singleton.
Qed.

(** What [check_for_bothskills] returns on a state that holds a skill set. *)
Lemma check_for_bothskills_disjoint st id S :
  skills st = Some S →
  py_set (hard S) ∩ py_set (soft S) = ∅ →
  check_for_bothskills st id =
    Ok (only_messages
          [ {| msg_content := "Hard & Soft skills were validated, all values are unique!";
               tool_call_id := id |} ]).
Proof.
  intros HS HI. unfold check_for_bothskills. rewrite HS, HI.
  rewrite size_empty. by rewrite bool_decide_eq_false_2 by lia.
Qed.

Lemma check_for_bothskills_overlap st id S :
  skills st = Some S →
  py_set (hard S) ∩ py_set (soft S) ≠ ∅ →
  let I := py_set (hard S) ∩ py_set (soft S) in
  check_for_bothskills st id =
    Ok {| u_skills :=
            Some (Some {| hard := py_list (py_set (hard S) ∖ I);
                          soft := py_list (py_set (soft S) ∖ I);
                          both := py_list I |});
          u_requirements := None; u_responsibilities := None;
          u_evaluation := None;
          u_messages := [both_message (length (py_list I)) id] |}.
Proof.
  intros HS HI I. unfold check_for_bothskills. rewrite HS.
  assert (0 < size I) as Hsz.
  { destruct (decide (size I = 0)) as [Hz|]; [|lia].
    apply size_empty_inv in Hz. exfalso. apply HI. by apply leibniz_equiv. }
  fold I. rewrite bool_decide_eq_true_2 by done.
  unfold py_list. rewrite move_loop_ok.
  - cbn [mbind result_bind app]. by rewrite list_to_set_elements_L.
  - apply NoDup_elements.
  - intros x Hx. apply elem_of_elements in Hx. subst I. set_solver.
Qed.

End Reconciliation.

(** ** The claims on reconciliation *)
Section ReconciliationClaims.
Import SkillUtils.

Lemma elem_of_py_set (x : string) (l : list string) : x ∈ py_set l ↔ x ∈ l.
Proof. unfold py_set. apply elem_of_list_to_set. Qed.

Lemma elem_of_py_list (x : string) (X : gset string) : x ∈ py_list X ↔ x ∈ X.
Proof. unfold py_list. apply elem_of_elements. Qed.

Lemma overlap_empty_iff (S : SkillTypes) :
  py_set (hard S) ∩ py_set (soft S) = ∅ ↔ ∀ s, ¬ (s ∈ hard S ∧ s ∈ soft S).
Proof.
  split.
  - intros HI s [Hh Hs].
    assert (s ∈ py_set (hard S) ∩ py_set (soft S)) as Hin
      by (apply elem_of_intersection; by rewrite !elem_of_py_set).
    rewrite HI in Hin. by apply not_elem_of_empty in Hin.
  - intros Hno. apply leibniz_equiv, elem_of_equiv_empty. intros s Hin.
    apply elem_of_intersection in Hin as [Hh Hs].
    rewrite !elem_of_py_set in Hh, Hs. by apply (Hno s).
Qed.

(** After a reconciliation step no skill is both hard and soft. *)
Lemma reconcile_result_disjoint st id S :
  skills st = Some S →
  ∃ st' S',
    step check_for_bothskills st id = Ok st' ∧ skills st' = Some S' ∧
    (∀ s, ¬ (s ∈ hard S' ∧ s ∈ soft S')).
Proof.
  intros HS. unfold step.
  destruct (decide (py_set (hard S) ∩ py_set (soft S) = ∅)) as [HI|HI].
  - rewrite (check_for_bothskills_disjoint _ _ _ HS HI).
    eexists _, S. split; [reflexivity|]. split; [exact HS|].
    by apply overlap_empty_iff.
  - rewrite (check_for_bothskills_overlap _ _ _ HS HI).
    eexists _, _. split; [reflexivity|]. split; [reflexivity|].
    cbn [hard soft]. intros s. rewrite !elem_of_py_list.
    rewrite !elem_of_difference, !elem_of_intersection, !elem_of_py_set.
    tauto.
Qed.

(** C1. For every state that holds a skill set, the reconciliation step
    returns normally and, in the state the driver obtains from its patch,
    every string that was in both [hard] and [soft] is in [both] and in
    neither [hard] nor [soft]; the resulting [hard] and [soft] share no
    element. *)
Theorem reconcile_moves_overlap st id S :
  skills st = Some S →
  ∃ st' S',
    step check_for_bothskills st id = Ok st' ∧ skills st' = Some S' ∧
    (∀ s, s ∈ hard S → s ∈ soft S → s ∈ both S' ∧ (s ∉ hard S') ∧ (s ∉ soft S')) ∧
    (∀ s, ¬ (s ∈ hard S' ∧ s ∈ soft S')).
Proof.
  intros HS. unfold step.
  destruct (decide (py_set (hard S) ∩ py_set (soft S) = ∅)) as [HI|HI].
  - rewrite (check_for_bothskills_disjoint _ _ _ HS HI).
    eexists _, S. split; [reflexivity|]. split; [exact HS|].
    pose proof (proj1 (overlap_empty_iff S) HI) as Hno. split.
    + intros s Hh Hs. destruct (Hno s). by split.
    + exact Hno.
  - rewrite (check_for_bothskills_overlap _ _ _ HS HI).
    eexists _, _. split; [reflexivity|]. split; [reflexivity|].
    cbn [hard soft both]. split.
    + intros s Hh Hs. rewrite !elem_of_py_list.
      rewrite !elem_of_difference, !elem_of_intersection, !elem_of_py_set.
      tauto.
    + intros s. rewrite !elem_of_py_list.
      rewrite !elem_of_difference, !elem_of_intersection, !elem_of_py_set.
      tauto.
Qed.

Lemma reconcile_moves_overlap_witness :
  ∃ st' S',
    step check_for_bothskills Samples.state0 "call-1" = Ok st' ∧
    skills st' = Some S' ∧
    (∀ s, s ∈ hard Samples.skills0 → s ∈ soft Samples.skills0 →
          s ∈ both S' ∧ (s ∉ hard S') ∧ (s ∉ soft S')) ∧
    (∀ s, ¬ (s ∈ hard S' ∧ s ∈ soft S')).
Proof.
  apply (reconcile_moves_overlap Samples.state0 "call-1" Samples.skills0).
  reflexivity.
Defined.

(** The scenario of the specification: [hard = {python, sql}],
    [soft = {sql, communication}] gives [hard = {python}],
    [soft = {communication}], [both = {sql}]. *)
Example reconcile_scenario :
  (λ st, skills st) <$> step check_for_bothskills Samples.state0 "call-1"
  = Ok (Some {| hard := ["python"]; soft := ["communication"]; both := ["sql"] |}).
Proof. vm_compute. reflexivity. Qed.

(** A skill that sat in [both] is gone once a later call finds another
    overlap: ["teamwork"] is replaced by ["sql"]. *)
Lemma both_not_accumulated :
  ¬ Readings.both_accumulates Samples.state0 "call-1".
Proof.
  unfold Readings.both_accumulates. intros Hacc.
  run_sample (step check_for_bothskills Samples.state0 "call-1") st'.
  specialize (Hacc Samples.skills0 _ _ eq_refl ltac:(discriminate) eq_refl eq_refl
                   "teamwork" ltac:(by left)).
  cbn [both] in Hacc. apply list_elem_of_singleton in Hacc. discriminate.
Qed.

(** C2 (amended). A reconciliation call that finds [hard] and [soft]
    disjoint leaves [both] as it was; a call that finds an overlap sets
    [both] to exactly the members of that overlap. *)
Theorem reconcile_both_replaced st id S :
  skills st = Some S →
  ∃ st' S',
    step check_for_bothskills st id = Ok st' ∧ skills st' = Some S' ∧
    ((∀ s, ¬ (s ∈ hard S ∧ s ∈ soft S)) → both S' = both S) ∧
    ((∃ s, s ∈ hard S ∧ s ∈ soft S) →
     ∀ s, s ∈ both S' ↔ s ∈ hard S ∧ s ∈ soft S).
Proof.
  intros HS. unfold step.
  destruct (decide (py_set (hard S) ∩ py_set (soft S) = ∅)) as [HI|HI].
  - rewrite (check_for_bothskills_disjoint _ _ _ HS HI).
    eexists _, S. split; [reflexivity|]. split; [exact HS|].
    split; [done|]. intros [s Hs].
    destruct (proj1 (overlap_empty_iff S) HI s Hs).
  - rewrite (check_for_bothskills_overlap _ _ _ HS HI).
    eexists _, _. split; [reflexivity|]. split; [reflexivity|].
    cbn [both]. split.
    + intros Hno. destruct HI. by apply overlap_empty_iff.
    + intros _ s.
      by rewrite elem_of_py_list, elem_of_intersection, !elem_of_py_set.
Qed.

Lemma reconcile_both_replaced_witness :
  ∃ st' S',
    step check_for_bothskills Samples.state0 "call-1" = Ok st' ∧
    skills st' = Some S' ∧
    ((∀ s, ¬ (s ∈ hard Samples.skills0 ∧ s ∈ soft Samples.skills0)) →
     both S' = both Samples.skills0) ∧
    ((∃ s, s ∈ hard Samples.skills0 ∧ s ∈ soft Samples.skills0) →
     ∀ s, s ∈ both S' ↔ s ∈ hard Samples.skills0 ∧ s ∈ soft Samples.skills0).
Proof.
  apply (reconcile_both_replaced Samples.state0 "call-1" Samples.skills0).
  reflexivity.
Defined.

(** C3. Reconciling twice in a row gives the state that reconciling once
    gives, the message log apart: the second call finds no overlap, so its
    patch carries no ["skills"] entry and only logs a message. *)
Theorem reconcile_idempotent st id1 id2 S :
  skills st = Some S →
  ∃ st1 st2 c2,
    step check_for_bothskills st id1 = Ok st1 ∧
    check_for_bothskills st1 id2 = Ok c2 ∧
    step check_for_bothskills st1 id2 = Ok st2 ∧
    u_skills c2 = None ∧
    skills st2 = skills st1 ∧
    requirements st2 = requirements st1 ∧
    responsibilities st2 = responsibilities st1 ∧
    evaluation st2 = evaluation st1 ∧
    job_ads st2 = job_ads st1 ∧
    todos st2 = todos st1.
Proof.
  intros HS.
  destruct (reconcile_result_disjoint st id1 S HS) as (st1 & S1 & Hstep & HS1 & Hdisj).
  exists st1.
  pose proof (check_for_bothskills_disjoint st1 id2 S1 HS1
                (proj2 (overlap_empty_iff S1) Hdisj)) as Hc2.
  eexists _, _. split; [exact Hstep|]. split; [exact Hc2|].
  unfold step at 1. rewrite Hc2. split; [reflexivity|].
  by cbn.
Qed.

Lemma reconcile_idempotent_witness :
  ∃ st1 st2 c2,
    step check_for_bothskills Samples.state0 "call-1" = Ok st1 ∧
    check_for_bothskills st1 "call-2" = Ok c2 ∧
    step check_for_bothskills st1 "call-2" = Ok st2 ∧
    u_skills c2 = None ∧
    skills st2 = skills st1 ∧
    requirements st2 = requirements st1 ∧
    responsibilities st2 = responsibilities st1 ∧
    evaluation st2 = evaluation st1 ∧
    job_ads st2 = job_ads st1 ∧
    todos st2 = todos st1.
Proof.
  apply (reconcile_idempotent Samples.state0 "call-1" "call-2" Samples.skills0).
  reflexivity.
Defined.

End ReconciliationClaims.

(** ** Missing prerequisites and empty input *)
Section Guards.
Import SkillUtils ReqAndRes Evaluation.
Context (w : World).

Lemma soft_loop_no_skills st ads vars :
  skills st = None → fold_left (soft_body w st) ads vars = vars.
Proof.
  intros HS. induction ads as [|ad ads IH]; [done|].
  cbn [fold_left]. unfold soft_body at 2. by rewrite HS.
Qed.

Lemma hard_loop_no_skills st ads vars :
  skills st = None → fold_left (hard_body w st) ads vars = vars.
Proof.
  intros HS. induction ads as [|ad ads IH]; [done|].
  cbn [fold_left]. unfold hard_body at 2. by rewrite HS.
Qed.

(** C8. On a state with advertisements but no skill set, neither extraction
    tool nor the reconciliation tool returns: each raises
    [UnboundLocalError] on a variable that only the guarded block binds. *)
Theorem missing_skills_raises st id :
  skills st = None → default [] (job_ads st) ≠ [] →
  extract_soft_skills w st id = Raise (UnboundLocalError "updated_softskills") ∧
  extract_hard_skills w st id = Raise (UnboundLocalError "updated_hardskills") ∧
  check_for_bothskills st id = Raise (UnboundLocalError "hard_skills").
Proof.
  intros HS Hads. unfold extract_soft_skills, extract_hard_skills, check_for_bothskills.
  rewrite HS. destruct (default [] (job_ads st)) as [|a ads]; [done|].
  by rewrite soft_loop_no_skills, hard_loop_no_skills.
Qed.

(** C9. With no advertisement in the state, each extraction tool and the
    evaluation tool returns a patch that holds one log message and nothing
    else, so the skill set, the requirements and the responsibilities are
    left as they were. *)
Theorem empty_job_ads_short_circuit st id :
  default [] (job_ads st) = [] →
  Forall
    (λ tool : ReActConversationState → string → result Command,
       ∃ c st' m,
         tool st id = Ok c ∧ step tool st id = Ok st' ∧
         c = only_messages [m] ∧
         skills st' = skills st ∧
         requirements st' = requirements st ∧
         responsibilities st' = responsibilities st ∧
         evaluation st' = evaluation st ∧
         messages st' = messages st ++ [m])
    [ extract_soft_skills w; extract_hard_skills w;
      extract_requirements w; extract_responsibilities w;
      evaluate_correctness w ].
Proof.
  intros Hads.
  repeat apply Forall_cons_2; [..|apply Forall_nil_2];
    unfold step, extract_soft_skills, extract_hard_skills, extract_requirements,
      extract_responsibilities, evaluate_correctness;
    rewrite Hads; by eexists _, _, _.
Qed.

End Guards.

Lemma missing_skills_raises_witness :
  SkillUtils.extract_soft_skills Samples.world0 Samples.state_no_skills "call-1"
    = Raise (UnboundLocalError "updated_softskills") ∧
  SkillUtils.extract_hard_skills Samples.world0 Samples.state_no_skills "call-1"
    = Raise (UnboundLocalError "updated_hardskills") ∧
  SkillUtils.check_for_bothskills Samples.state_no_skills "call-1"
    = Raise (UnboundLocalError "hard_skills").
Proof.
  apply (missing_skills_raises Samples.world0 Samples.state_no_skills "call-1").
  - reflexivity.
  - discriminate.
Defined.

Lemma empty_job_ads_short_circuit_witness :
  Forall
    (λ tool : ReActConversationState → string → result Command,
       ∃ c st' m,
         tool Samples.state_no_ads "call-1" = Ok c ∧
         step tool Samples.state_no_ads "call-1" = Ok st' ∧
         c = only_messages [m] ∧
         skills st' = skills Samples.state_no_ads ∧
         requirements st' = requirements Samples.state_no_ads ∧
         responsibilities st' = responsibilities Samples.state_no_ads ∧
         evaluation st' = evaluation Samples.state_no_ads ∧
         messages st' = messages Samples.state_no_ads ++ [m])
    [ SkillUtils.extract_soft_skills Samples.world0;
      SkillUtils.extract_hard_skills Samples.world0;
      ReqAndRes.extract_requirements Samples.world0;
      ReqAndRes.extract_responsibilities Samples.world0;
      Evaluation.evaluate_correctness Samples.world0 ].
Proof.
  apply (empty_job_ads_short_circuit Samples.world0 Samples.state_no_ads "call-1").
  reflexivity.
Defined.

(** ** Rendering the todo list *)
Section Todos.
Import TodoUtils.

(** The loop keeps the line of the item it saw last. *)
Lemma read_loop_last (l : list (nat * Todo)) it result :
  fold_left read_body (l ++ [it]) result = todo_line (fst it) (snd it).
Proof. by rewrite fold_left_app. Qed.

Lemma enumerate_snoc {A} (l : list A) (x : A) start :
  enumerate (l ++ [x]) start = enumerate l start ++ [(start + length l, x)].
Proof.
  revert start. induction l as [|y l IH]; intros start; cbn.
  - by rewrite Nat.add_0_r.
  - by rewrite IH, Nat.add_succ_r.
Qed.

(** Whatever the list holds, the rendering is the line of its last item. *)
Lemma read_todos_last st id l t :
  todos st = Some (l ++ [t]) →
  read_todos st id = PyStr.strip (todo_line (S (length l)) t).
Proof.
  intros Ht. unfold read_todos. rewrite Ht.
  change (default [] (Some (l ++ [t]))) with (l ++ [t]).
  destruct l as [|t0 l]; cbn [app]; [done|].
  by rewrite app_comm_cons, enumerate_snoc, read_loop_last.
Qed.

(** C5. On a list of two items the rendering holds the second item only:
    the first item, ["extract skills"], does not occur in it.  The empty
    list does yield the "no todos" message. *)
Theorem read_todos_drops_items :
  read_todos Samples.state0 "call-1" = "2. ✅ evaluate: completed" ∧
  PyStr.contains "extract skills" (read_todos Samples.state0 "call-1") = false ∧
  read_todos Samples.state_no_ads "call-1"
    = "Currently, there aren't any todos in the list.".
Proof. by vm_compute. Qed.

End Todos.

(** ** Normalisation of the extracted labels *)
Section Normalisation.
Import SkillUtils.

Import PyStr.

Lemma append_cons c (s t : string) : String c s +:+ t = String c (s +:+ t).
Proof. reflexivity. Qed.

Lemma append_empty (s : string) : s +:+ "" = s.
Proof. induction s as [|c s IH]; [done|]. by rewrite append_cons, IH. Qed.

Lemma chars_snoc (s : string) c :
  chars (s +:+ String c "") = chars s ++ [c].
Proof.
  induction s as [|d s IH]; [done|].
  rewrite append_cons. cbn [String.list_ascii_of_string]. by rewrite IH.
Qed.

Lemma snoc_not_empty (s : string) c : s +:+ String c "" ≠ "".
Proof. by destruct s. Qed.

Lemma split_go_words cur s :
  (∀ c, c ∈ chars cur → PyStr.is_space c = false) →
  Forall is_word (PyStr.split_go cur s).
Proof.
  revert cur. induction s as [|c s IH]; intros cur Hcur; cbn [PyStr.split_go].
  - destruct (decide (cur = "")); [constructor|]. by repeat constructor.
  - destruct (PyStr.is_space c) eqn:Hc.
    + assert (Forall is_word (PyStr.split_go "" s)) as Hrest
        by (apply IH; intros d Hd; by apply elem_of_nil in Hd).
      destruct (decide (cur = "")); [done|]. by repeat constructor.
    + apply IH. intros d Hd. rewrite chars_snoc in Hd.
      apply elem_of_app in Hd as [Hd|Hd]; [by apply Hcur|].
      by apply list_elem_of_singleton in Hd as ->.
Qed.

Lemma split_go_not_nil cur s :
  cur ≠ "" ∨ (∃ c, c ∈ chars s ∧ PyStr.is_space c = false) →
  PyStr.split_go cur s ≠ [].
Proof.
  revert cur. induction s as [|c s IH]; intros cur Hne; cbn [PyStr.split_go].
  - destruct Hne as [Hne|(c & Hc & _)]; [|by apply elem_of_nil in Hc].
    by rewrite decide_False.
  - destruct (PyStr.is_space c) eqn:Hc.
    + destruct (decide (cur = "")) as [->|]; [|done].
      apply IH. right. destruct Hne as [|(d & Hd & Hsp)]; [done|].
      cbn in Hd. apply elem_of_cons in Hd as [->|Hd]; [congruence|eauto].
    + apply IH. left. apply snoc_not_empty.
Qed.

Lemma contains_underscore s :
  PyStr.contains "_" s = true → "_"%char ∈ chars s.
Proof.
  induction s as [|c s IH]; cbn; [done|].
  intros [H|H]%orb_true_iff.
  - destruct (Ascii.ascii_dec "_" c) as [<-|Hne]; [left|].
    destruct c as [[] [] [] [] [] [] [] []]; by try discriminate.
  - right. by apply IH.
Qed.

Lemma collapsed_go_word b w rest :
  is_word w →
  PyStr.collapsed_go b (w +:+ rest) = PyStr.collapsed_go false rest.
Proof.
  intros [Hne Hw]. revert b. induction w as [|c w IH]; intros b; [done|].
  rewrite append_cons. cbn [PyStr.collapsed_go].
  rewrite (Hw c) by (cbn; left).
  destruct w as [|d w]; [done|].
  apply IH; [done|]. intros e He. apply Hw. cbn. by right.
Qed.

Lemma collapsed_join l :
  l ≠ [] → Forall is_word l →
  PyStr.collapsed_go true (PyStr.join " " l) = true.
Proof.
  induction l as [|w l IH]; [done|]. intros _ Hall.
  apply Forall_cons in Hall as [Hw Hall].
  destruct l as [|w' l].
  - cbn [PyStr.join]. rewrite <- (append_empty w).
    by rewrite collapsed_go_word.
  - change (PyStr.join " " (w :: w' :: l))
      with (w +:+ " " +:+ PyStr.join " " (w' :: l)).
    rewrite collapsed_go_word by done.
    change (" " +:+ PyStr.join " " (w' :: l))
      with (String " " (PyStr.join " " (w' :: l))).
    cbn [PyStr.collapsed_go]. by apply IH.
Qed.

Lemma lower_char_space c :
  PyStr.is_space (PyStr.lower_char c) = PyStr.is_space c ∧
  Ascii.eqb (PyStr.lower_char c) " " = Ascii.eqb c " " ∧
  PyStr.is_upper (PyStr.lower_char c) = false.
Proof. by destruct c as [[] [] [] [] [] [] [] []]; vm_compute. Qed.

Lemma collapsed_go_lower b s :
  PyStr.collapsed_go b (PyStr.lower s) = PyStr.collapsed_go b s.
Proof.
  revert b. induction s as [|c s IH]; intros b; [done|].
  cbn [PyStr.lower PyStr.collapsed_go].
  destruct (lower_char_space c) as (-> & -> & _). by rewrite !IH.
Qed.

Lemma lower_is_lower_cased s : PyStr.lower_cased (PyStr.lower s) = true.
Proof.
  induction s as [|c s IH]; [done|]. cbn [PyStr.lower PyStr.lower_cased].
  destruct (lower_char_space c) as (_ & _ & ->). by rewrite IH.
Qed.

Lemma whitespace_collapsed_intro s :
  PyStr.collapsed_go true s = true → PyStr.whitespace_collapsed s = true.
Proof. by destruct s. Qed.

Lemma normalise_lower_cased skill : PyStr.lower_cased (normalise skill) = true.
Proof. unfold normalise. destruct (PyStr.contains _ _); apply lower_is_lower_cased. Qed.

Lemma normalise_collapsed skill :
  PyStr.contains "_" skill = true →
  PyStr.whitespace_collapsed (normalise skill) = true.
Proof.
  intros Hu. unfold normalise. rewrite Hu.
  apply whitespace_collapsed_intro. rewrite collapsed_go_lower.
  apply collapsed_join.
  - apply split_go_not_nil. right. exists "_"%char.
    split; [by apply contains_underscore|done].
  - apply split_go_words. intros c Hc. by apply elem_of_nil in Hc.
Qed.

End Normalisation.

(** ** Skill extraction *)
Section Extraction.
Import SkillUtils Readings.
Context (w : World).

(** With a skill set in the state every iteration overwrites the loop
    variables, so the loop ends with what the last advertisement gave. *)
Lemma soft_loop_last st S ads ad vars :
  skills st = Some S →
  fold_left (soft_body w st) (ads ++ [ad]) vars =
    let updated := py_list (py_set (soft S ++ soft_labels w ad)) in
    {| updated_dictionary :=
         Some {| hard := hard S; soft := updated; both := both S |};
       updated_skills := Some updated |}.
Proof.
  intros HS. rewrite fold_left_app. cbn [fold_left].
  unfold soft_body at 1. by rewrite HS.
Qed.

Lemma hard_loop_last st S ads ad vars :
  skills st = Some S →
  fold_left (hard_body w st) (ads ++ [ad]) vars =
    let updated := py_list (py_set (hard S ++ hard_labels w ad)) in
    {| updated_dictionary :=
         Some {| hard := updated; soft := soft S; both := both S |};
       updated_skills := Some updated |}.
Proof.
  intros HS. rewrite fold_left_app. cbn [fold_left].
  unfold hard_body at 1. by rewrite HS.
Qed.

Lemma map_snoc_not_nil {A B} (f : A → B) (l : list A) (x : A) :
  map f (l ++ [x]) = map f l ++ [f x] ∧ l ++ [x] ≠ [].
Proof. split; [by rewrite map_app|by destruct l]. Qed.

Lemma extract_soft_skills_spec st id S ads ad :
  skills st = Some S → job_ads st = Some (ads ++ [ad]) →
  let updated := py_list (py_set (soft S ++ soft_labels w (ad_text ad))) in
  extract_soft_skills w st id =
    Ok {| u_skills := Some (Some {| hard := hard S; soft := updated; both := both S |});
          u_requirements := None; u_responsibilities := None;
          u_evaluation := None;
          u_messages := [extract_message (length updated) "soft" id] |}.
Proof.
  intros HS Hads. unfold extract_soft_skills. rewrite Hads.
  change (default [] (Some (ads ++ [ad]))) with (ads ++ [ad]).
  destruct (map_snoc_not_nil ad_text ads ad) as [-> Hne].
  destruct (ads ++ [ad]) as [|a l]; [done|].
  by rewrite (soft_loop_last _ _ _ _ _ HS).
Qed.

Lemma extract_hard_skills_spec st id S ads ad :
  skills st = Some S → job_ads st = Some (ads ++ [ad]) →
  let updated := py_list (py_set (hard S ++ hard_labels w (ad_text ad))) in
  extract_hard_skills w st id =
    Ok {| u_skills := Some (Some {| hard := updated; soft := soft S; both := both S |});
          u_requirements := None; u_responsibilities := None;
          u_evaluation := None;
          u_messages := [extract_message (length updated) "hard" id] |}.
Proof.
  intros HS Hads. unfold extract_hard_skills. rewrite Hads.
  change (default [] (Some (ads ++ [ad]))) with (ads ++ [ad]).
  destruct (map_snoc_not_nil ad_text ads ad) as [-> Hne].
  destruct (ads ++ [ad]) as [|a l]; [done|].
  by rewrite (hard_loop_last _ _ _ _ _ HS).
Qed.

(** Set union makes a repeated extraction of the same labels a no-op. *)
Lemma py_list_set_absorb (old labels : list string) :
  py_list (py_set (py_list (py_set (old ++ labels)) ++ labels))
  = py_list (py_set (old ++ labels)).
Proof.
  unfold py_list, py_set.
  rewrite (list_to_set_app_L (elements _)), list_to_set_elements_L.
  rewrite list_to_set_app_L.
  by rewrite <- (assoc_L (∪)), (idemp_L (∪)).
Qed.

Lemma elem_of_py_list_set (x : string) (old labels : list string) :
  x ∈ py_list (py_set (old ++ labels)) ↔ x ∈ old ∨ x ∈ labels.
Proof.
  unfold py_list, py_set.
  by rewrite elem_of_elements, elem_of_list_to_set, elem_of_app.
Qed.

Lemma soft_unions_labels st id1 id2 S ads ad :
  skills st = Some S → job_ads st = Some (ads ++ [ad]) →
  unions_labels (extract_soft_skills w) soft hard both
    (soft_labels w (ad_text ad)) st id1 id2 S.
Proof.
  intros HS Hads. unfold unions_labels, step.
  rewrite (extract_soft_skills_spec st id1 S ads ad HS Hads).
  cbn [mbind result_bind mret result_ret].
  eexists _, _. eexists _, _. split; [reflexivity|]. split; [reflexivity|].
  match goal with |- context [apply_update st ?c] => set (st1 := apply_update st c) end.
  rewrite (extract_soft_skills_spec st1 id2 _ ads ad eq_refl Hads).
  cbn [mbind result_bind mret result_ret hard soft both].
  split; [reflexivity|]. split; [reflexivity|].
  cbn [hard soft both]. rewrite py_list_set_absorb.
  repeat split; try done.
  - by apply elem_of_py_list_set.
  - by apply elem_of_py_list_set.
  - apply NoDup_elements.
Qed.

Lemma hard_unions_labels st id1 id2 S ads ad :
  skills st = Some S → job_ads st = Some (ads ++ [ad]) →
  unions_labels (extract_hard_skills w) hard soft both
    (hard_labels w (ad_text ad)) st id1 id2 S.
Proof.
  intros HS Hads. unfold unions_labels, step.
  rewrite (extract_hard_skills_spec st id1 S ads ad HS Hads).
  cbn [mbind result_bind mret result_ret].
  eexists _, _. eexists _, _. split; [reflexivity|]. split; [reflexivity|].
  match goal with |- context [apply_update st ?c] => set (st1 := apply_update st c) end.
  rewrite (extract_hard_skills_spec st1 id2 _ ads ad eq_refl Hads).
  cbn [mbind result_bind mret result_ret hard soft both].
  split; [reflexivity|]. split; [reflexivity|].
  cbn [hard soft both]. rewrite py_list_set_absorb.
  repeat split; try done.
  - by apply elem_of_py_list_set.
  - by apply elem_of_py_list_set.
  - apply NoDup_elements.
Qed.

(** C6 (amended). Every label that an extraction tool adds to the skill
    set is the normalisation of a class reported by the collaborator for
    the last advertisement; a normalised label is always lower-cased, and
    its whitespace is collapsed when the reported class holds an
    underscore. *)
Theorem stored_labels_normalised st id S ads ad :
  skills st = Some S → job_ads st = Some (ads ++ [ad]) →
  ∃ st1 S1 st2 S2,
    step (extract_soft_skills w) st id = Ok st1 ∧ skills st1 = Some S1 ∧
    step (extract_hard_skills w) st id = Ok st2 ∧ skills st2 = Some S2 ∧
    (∀ x, x ∈ soft S1 → x ∈ soft S ∨
       ∃ e, e ∈ lx_extract w (ad_text ad) SOFT_EXTRACTION_PROMPT
                  (build_examples (softskills_json w)) ∧
            x = normalise (extraction_class e)) ∧
    (∀ x, x ∈ hard S2 → x ∈ hard S ∨
       ∃ e, e ∈ lx_extract w (ad_text ad) HARD_EXTRACTION_PROMPT
                  (build_examples (hardskills_json w)) ∧
            x = normalise (extraction_class e)) ∧
    (∀ class,
       PyStr.lower_cased (normalise class) = true ∧
       (PyStr.contains "_" class = true →
        PyStr.whitespace_collapsed (normalise class) = true)).
Proof.
  intros HS Hads. unfold step.
  rewrite (extract_soft_skills_spec st id S ads ad HS Hads).
  rewrite (extract_hard_skills_spec st id S ads ad HS Hads).
  cbn [mbind result_bind mret result_ret].
  eexists _, _. eexists _, _. split; [reflexivity|]. split; [reflexivity|].
  split; [reflexivity|]. split; [reflexivity|]. cbn [hard soft both].
  split; [|split].
  - intros x [Hx|Hx]%elem_of_py_list_set; [by left|right].
    unfold soft_labels in Hx. rewrite <- list_fmap_compose in Hx.
    apply list_elem_of_fmap in Hx as (e & -> & He). by exists e.
  - intros x [Hx|Hx]%elem_of_py_list_set; [by left|right].
    unfold hard_labels in Hx. rewrite <- list_fmap_compose in Hx.
    apply list_elem_of_fmap in Hx as (e & -> & He). by exists e.
  - intros class. split; [apply normalise_lower_cased|apply normalise_collapsed].
Qed.

End Extraction.

(** C4. Two advertisements, the collaborator reporting the class Python for
    the first and Leadership for the second, and a soft list that holds sql
    and communication.  The tool asks the collaborator about both
    advertisements and unions each answer with the stored list, but every
    pass starts again from the stored list and overwrites the outcome of the
    pass before: the soft list of the patch is sql, communication and
    leadership, and python, the label of the first advertisement, is not in
    it.  So the labels are not unioned over every supplied advertisement. *)
Theorem extraction_drops_earlier_ads :
  Readings.soft_labels Samples.world0 "first ad" = ["python"] ∧
  Readings.soft_labels Samples.world0 "second ad" = ["leadership"] ∧
  ∃ st' S',
    step (SkillUtils.extract_soft_skills Samples.world0) Samples.state0 "call-1"
    = Ok st' ∧
    skills st' = Some S' ∧
    (∀ x, x ∈ soft S' ↔ x ∈ ["sql"; "communication"; "leadership"]) ∧
    length (soft S') = 3 ∧
    ("python" ∉ soft S') ∧
    ¬ Readings.labels_of_every_ad_kept Samples.world0 Samples.state0 "call-1".
Proof.
  unfold Readings.labels_of_every_ad_kept.
  split; [vm_compute; reflexivity|]. split; [vm_compute; reflexivity|].
  run_sample
    (step (SkillUtils.extract_soft_skills Samples.world0) Samples.state0 "call-1") st'.
  eexists _, _. split; [reflexivity|]. split; [reflexivity|]. cbn [soft].
  split; [|split; [reflexivity|split]].
  - intros x. split; intros Hx;
      repeat (apply elem_of_cons in Hx as [->|Hx]; [set_solver|]);
      by apply elem_of_nil in Hx.
  - intros Hx.
    repeat (apply elem_of_cons in Hx as [Hx|Hx]; [discriminate|]).
    by apply elem_of_nil in Hx.
  - intros Hkept.
    assert ("python" ∈ Readings.soft_labels Samples.world0 "first ad") as Hlabel
      by (vm_compute; left).
    specialize (Hkept _ _ {| ad_text := "first ad" |} "python" eq_refl eq_refl
                      ltac:(left) Hlabel).
    cbn [soft] in Hkept.
    repeat (apply elem_of_cons in Hkept as [Hkept|Hkept]; [discriminate|]).
    by apply elem_of_nil in Hkept.
Qed.

(** A class without underscore keeps its doubled blank. *)
Lemma doubled_blank_stored :
  ¬ Readings.labels_normalised Samples.world1 Samples.state0 "call-1".
Proof.
  unfold Readings.labels_normalised. intros Hnorm.
  run_sample
    (step (SkillUtils.extract_soft_skills Samples.world1) Samples.state0 "call-1") st'.
  destruct (Hnorm _ _ "team  work" eq_refl eq_refl) as [Hc _].
  - cbn [soft]. do 2 right. left.
  - vm_compute in Hc. discriminate.
Qed.

Lemma stored_labels_normalised_witness :
  ∃ st1 S1 st2 S2,
    step (SkillUtils.extract_soft_skills Samples.world1) Samples.state0 "call-1" = Ok st1 ∧
    skills st1 = Some S1 ∧
    step (SkillUtils.extract_hard_skills Samples.world1) Samples.state0 "call-1" = Ok st2 ∧
    skills st2 = Some S2 ∧
    (∀ x, x ∈ soft S1 → x ∈ soft Samples.skills0 ∨
       ∃ e, e ∈ lx_extract Samples.world1 "second ad" SOFT_EXTRACTION_PROMPT
                  (SkillUtils.build_examples (softskills_json Samples.world1)) ∧
            x = SkillUtils.normalise (extraction_class e)) ∧
    (∀ x, x ∈ hard S2 → x ∈ hard Samples.skills0 ∨
       ∃ e, e ∈ lx_extract Samples.world1 "second ad" HARD_EXTRACTION_PROMPT
                  (SkillUtils.build_examples (hardskills_json Samples.world1)) ∧
            x = SkillUtils.normalise (extraction_class e)) ∧
    (∀ class,
       PyStr.lower_cased (SkillUtils.normalise class) = true ∧
       (PyStr.contains "_" class = true →
        PyStr.whitespace_collapsed (SkillUtils.normalise class) = true)).
Proof.
  apply (stored_labels_normalised Samples.world1 Samples.state0 "call-1"
           Samples.skills0 [ {| ad_text := "first ad" |} ] {| ad_text := "second ad" |});
    reflexivity.
Defined.

(** ** Division of a binary64 score by ten *)
Section Binary64.
Import PyFloat.
Local Open Scope Z_scope.



















End Binary64.

(** ** Evaluation *)
Section Evaluating.
Import Evaluation Readings.
Context (w : World).

(** Write an optional entry under a key. *)
Lemma task_body_entry st ad (m : gmap string EvalEntry) key :
  task_body w st ad m key =
    match entry_for w st ad key with
    | Some e => <[key := e]> m
    | None => m
    end.
Proof.
  unfold task_body, entry_for. destruct (decide (key = "skills")) as [->|Hk].
  - by destruct (skills st).
  - by destruct (state_get_list st key) as [[|x l]|].
Qed.

Lemma entry_for_other st ad key : key ∉ tasks → entry_for w st ad key = None.
Proof.
  intros Hk. unfold entry_for, state_get_list.
  destruct (decide (key = "skills")) as [->|?]; [destruct Hk; set_solver|].
  destruct (decide (key = "requirements")) as [->|?]; [destruct Hk; set_solver|].
  destruct (decide (key = "responsibilities")) as [->|?]; [destruct Hk; set_solver|].
  done.
Qed.

(** One pass over the tasks overwrites exactly the entries it computes. *)
Lemma ad_body_lookup st ad (m : gmap string EvalEntry) key :
  ad_body w st m ad !! key =
    match entry_for w st ad key with
    | Some e => Some e
    | None => m !! key
    end.
Proof.
  unfold ad_body, tasks. cbn [fold_left]. rewrite !task_body_entry.
  destruct (decide (key ∈ tasks)) as [Hin|Hout].
  - unfold tasks in Hin.
    repeat (apply elem_of_cons in Hin as [->|Hin]); [..|by apply elem_of_nil in Hin];
      repeat (destruct (entry_for _ _ _ _));
      by repeat (rewrite lookup_insert_eq || rewrite lookup_insert_ne by done).
  - rewrite (entry_for_other _ _ _ Hout).
    assert (key ≠ "skills" ∧ key ≠ "requirements" ∧ key ≠ "responsibilities")
      as (? & ? & ?) by (unfold tasks in Hout; set_solver).
    repeat (destruct (entry_for _ _ _ _));
      by rewrite ?lookup_insert_ne by done.
Qed.

(** Whether a key receives an entry depends on the state only. *)
Lemma entry_for_none_any_ad st ad ad' key :
  entry_for w st ad key = None → entry_for w st ad' key = None.
Proof.
  unfold entry_for. destruct (decide (key = "skills")).
  - by destruct (skills st).
  - by destruct (state_get_list st key) as [[|x l]|].
Qed.

Lemma eval_loop_none st ads ad (m : gmap string EvalEntry) key :
  entry_for w st ad key = None → m !! key = None →
  fold_left (ad_body w st) ads m !! key = None.
Proof.
  intros Hnone. revert m. induction ads as [|a ads IH]; intros m Hm; [done|].
  cbn [fold_left]. apply IH. rewrite ad_body_lookup.
  by rewrite (entry_for_none_any_ad _ _ a _ Hnone).
Qed.

(** After the loop over the advertisements every entry is the one computed
    for the last advertisement. *)
Lemma eval_loop_lookup st ads ad key :
  fold_left (ad_body w st) (ads ++ [ad]) ∅ !! key = entry_for w st ad key.
Proof.
  rewrite fold_left_app. cbn [fold_left]. rewrite ad_body_lookup.
  destruct (entry_for w st ad key) eqn:He; [done|].
  by apply (eval_loop_none _ _ ad).
Qed.

Lemma evaluate_correctness_spec st id ads ad :
  job_ads st = Some (ads ++ [ad]) →
  ∃ c m,
    evaluate_correctness w st id = Ok c ∧ u_evaluation c = Some m ∧
    ∀ key, m !! key = entry_for w st (ad_text ad) key.
Proof.
  intros Hads. unfold evaluate_correctness. rewrite Hads.
  change (default [] (Some (ads ++ [ad]))) with (ads ++ [ad]).
  rewrite map_app. cbn [map].
  destruct (ads ++ [ad]) as [|a l] eqn:E; [by destruct ads|].
  eexists _, _. split; [reflexivity|]. split; [reflexivity|].
  intros key. apply eval_loop_lookup.
Qed.



Lemma entry_for_skills st ad :
  entry_for w st ad "skills"
  = (λ S, SkillEntries (skill_results w ad S)) <$> skills st.
Proof. unfold entry_for. by rewrite decide_True. Qed.








End Evaluating.

(** C7. Two advertisements, one requirement and a skill set.  The judge is
    asked about each advertisement and each category, but the answers are
    stored under the task alone, so the second advertisement overwrites the
    first: the returned mapping has two keys, ["requirements"] and
    ["skills"], both holding the judgement against the second
    advertisement, and the judgement of the requirement against the first
    advertisement is under no key.  So the mapping does not hold an entry
    for every (job ad, category) pair. *)
Theorem evaluation_drops_earlier_ads :
  ∃ c m,
    Evaluation.evaluate_correctness Samples.world0 Samples.state0 "call-1" = Ok c ∧
    u_evaluation c = Some m ∧
    m !! "requirements"
    = Some (TaskEntry
              {| reasoning := ["judged against second ad"];
                 score := [PyFloat.truediv (PyFloat.of_int 8) (PyFloat.of_int 10)] |}) ∧
    m !! "skills"
    = Some (SkillEntries
              [ ("hard", Evaluation.judge Samples.world0 "second ad"
                           ["python"; "sql"] "skills");
                ("soft", Evaluation.judge Samples.world0 "second ad"
                           ["sql"; "communication"] "skills");
                ("both", Evaluation.judge Samples.world0 "second ad"
                           ["teamwork"] "skills") ]) ∧
    size m = 2 ∧
    Evaluation.judge Samples.world0 "first ad" ["3 years of experience"] "requirements"
    = {| reasoning := ["judged against first ad"];
         score := [PyFloat.truediv (PyFloat.of_int 8) (PyFloat.of_int 10)] |} ∧
    (∀ key,
       m !! key
       ≠ Some (TaskEntry (Evaluation.judge Samples.world0 "first ad"
                            ["3 years of experience"] "requirements"))) ∧
    ¬ Readings.one_entry_per_pair Samples.world0 Samples.state0 "call-1".
Proof.
  unfold Readings.one_entry_per_pair.
  run_sample (Evaluation.evaluate_correctness Samples.world0 Samples.state0 "call-1") c.
  eexists _, _. split; [reflexivity|]. split; [reflexivity|].
  assert (∀ key m,
    m = fold_left (Evaluation.ad_body Samples.world0 Samples.state0)
          ["first ad"; "second ad"] ∅ →
    m !! key
    ≠ Some (TaskEntry (Evaluation.judge Samples.world0 "first ad"
                         ["3 years of experience"] "requirements"))) as Hlost.
  { intros key m -> Hkey.
    apply elem_of_map_to_list in Hkey. vm_compute in Hkey.
    repeat (apply elem_of_cons in Hkey as [Hkey|Hkey]; [discriminate|]).
    by apply elem_of_nil in Hkey. }
  split; [vm_compute; reflexivity|]. split; [vm_compute; reflexivity|].
  split; [vm_compute; reflexivity|]. split; [vm_compute; reflexivity|].
  split.
  - intros key. apply Hlost. vm_compute. reflexivity.
  - intros Hall.
    destruct (Hall _ _ {| ad_text := "first ad" |} ["3 years of experience"]
                eq_refl eq_refl ltac:(left) eq_refl ltac:(discriminate))
      as [key Hkey].
    revert Hkey. apply Hlost. vm_compute. reflexivity.
Qed.


(** The scenario of the specification: a raw score of 8 in the range
    (0, 10) is stored as the binary64 value written 0.8, which is
    [7205759403792794 * 2^-53]. *)
Example score_scenario :
  Evaluation.normalise_scores [PyFloat.of_int 8]
  = [S754_finite false 7205759403792794 (-53)].
Proof. vm_compute. reflexivity. Qed.

(** * Further properties of the tools *)

(** ** Reconciliation *)
Section ReconciliationMore.
Import SkillUtils Notions.

(** X1. Reconciliation keeps every hard and every soft skill and invents
    none: every skill that was hard or soft is hard, soft or both
    afterwards; the new hard and soft lists hold only skills of the old
    ones; and a skill of the new [both] was both hard and soft before the
    call, or the call found no overlap and the skill was in [both] already.
    Nothing is said of the skills that were only in [both]: a call that
    finds an overlap drops them. *)
Theorem reconcile_preserves_skills st id S :
  skills st = Some S →
  ∃ st' S',
    step check_for_bothskills st id = Ok st' ∧ skills st' = Some S' ∧
    (∀ s, s ∈ hard S ∨ s ∈ soft S → s ∈ hard S' ∨ s ∈ soft S' ∨ s ∈ both S') ∧
    (∀ s, s ∈ hard S' → s ∈ hard S) ∧
    (∀ s, s ∈ soft S' → s ∈ soft S) ∧
    (∀ s, s ∈ both S' →
       (s ∈ hard S ∧ s ∈ soft S) ∨
       (s ∈ both S ∧ ∀ x, ¬ (x ∈ hard S ∧ x ∈ soft S))).
Proof.
  intros HS. unfold step.
  destruct (decide (py_set (hard S) ∩ py_set (soft S) = ∅)) as [HI|HI].
  - rewrite (check_for_bothskills_disjoint _ _ _ HS HI).
    eexists _, S. split; [reflexivity|]. split; [exact HS|].
    split; [|split; [done|split; [done|]]].
    + intros s [Hs|Hs]; auto.
    + intros s Hs. right. split; [done|].
      exact (proj1 (overlap_empty_iff S) HI).
  - rewrite (check_for_bothskills_overlap _ _ _ HS HI).
    eexists _, _. split; [reflexivity|]. split; [reflexivity|].
    cbn [hard soft both]. split; [|split; [|split]].
    + intros s. rewrite !elem_of_py_list.
      rewrite !elem_of_difference, !elem_of_intersection, !elem_of_py_set.
      destruct (decide (s ∈ hard S)), (decide (s ∈ soft S)); tauto.
    + intros s. rewrite elem_of_py_list, elem_of_difference, elem_of_py_set. tauto.
    + intros s. rewrite elem_of_py_list, elem_of_difference, elem_of_py_set. tauto.
    + intros s. rewrite elem_of_py_list, elem_of_intersection, !elem_of_py_set.
      tauto.
Qed.

Lemma reconcile_preserves_skills_witness :
  ∃ st' S',
    step check_for_bothskills Samples.state0 "call-1" = Ok st' ∧
    skills st' = Some S' ∧
    (∀ s, s ∈ hard Samples.skills0 ∨ s ∈ soft Samples.skills0 →
          s ∈ hard S' ∨ s ∈ soft S' ∨ s ∈ both S') ∧
    (∀ s, s ∈ hard S' → s ∈ hard Samples.skills0) ∧
    (∀ s, s ∈ soft S' → s ∈ soft Samples.skills0) ∧
    (∀ s, s ∈ both S' →
       (s ∈ hard Samples.skills0 ∧ s ∈ soft Samples.skills0) ∨
       (s ∈ both Samples.skills0 ∧
        ∀ x, ¬ (x ∈ hard Samples.skills0 ∧ x ∈ soft Samples.skills0))).
Proof.
  apply (reconcile_preserves_skills Samples.state0 "call-1" Samples.skills0).
  reflexivity.
Defined.

(** X2. When some skill is both hard and soft, the patch of the
    reconciliation holds three duplicate-free lists, no skill of [both] is
    left in [hard] or [soft], and the number in the log message is the
    number of distinct skills that were both hard and soft. *)
Theorem reconcile_overlap_partition st id S s0 :
  skills st = Some S → s0 ∈ hard S → s0 ∈ soft S →
  ∃ c S',
    check_for_bothskills st id = Ok c ∧ u_skills c = Some (Some S') ∧
    NoDup (hard S') ∧ NoDup (soft S') ∧ NoDup (both S') ∧
    (∀ s, s ∈ both S' → (s ∉ hard S') ∧ (s ∉ soft S')) ∧
    u_messages c = [both_message (length (both S')) id] ∧
    length (both S') = size (py_set (hard S) ∩ py_set (soft S)).
Proof.
  intros HS Hh Hs.
  assert (py_set (hard S) ∩ py_set (soft S) ≠ ∅) as HI.
  { intros HI. by apply (proj1 (overlap_empty_iff S) HI s0). }
  rewrite (check_for_bothskills_overlap _ _ _ HS HI).
  eexists _, _. split; [reflexivity|]. split; [reflexivity|].
  cbn [hard soft both u_messages]. unfold py_list.
  repeat split; try apply NoDup_elements.
  - rewrite !elem_of_elements, elem_of_difference in *. tauto.
  - rewrite !elem_of_elements, elem_of_difference in *. tauto.
Qed.

Lemma reconcile_overlap_partition_witness :
  ∃ c S',
    check_for_bothskills Samples.state0 "call-1" = Ok c ∧
    u_skills c = Some (Some S') ∧
    NoDup (hard S') ∧ NoDup (soft S') ∧ NoDup (both S') ∧
    (∀ s, s ∈ both S' → (s ∉ hard S') ∧ (s ∉ soft S')) ∧
    u_messages c = [both_message (length (both S')) "call-1"] ∧
    length (both S')
    = size (py_set (hard Samples.skills0) ∩ py_set (soft Samples.skills0)).
Proof.
  apply (reconcile_overlap_partition Samples.state0 "call-1" Samples.skills0 "sql");
    [reflexivity|right; left|left].
Defined.

End ReconciliationMore.

(** ** Skill extraction *)
Section ExtractionMore.
Import SkillUtils Readings Notions.
Context (w : World).

(** X3. The two extraction tools commute: extracting the soft skills and
    then the hard skills gives the same hard skills, the same soft skills
    (as sets) and the same [both] list as the opposite order. *)
Theorem extraction_tools_commute st id1 id2 S ads ad :
  skills st = Some S → job_ads st = Some (ads ++ [ad]) →
  ∃ st1 st12 st2 st21 Sa Sb,
    step (extract_soft_skills w) st id1 = Ok st1 ∧
    step (extract_hard_skills w) st1 id2 = Ok st12 ∧
    step (extract_hard_skills w) st id1 = Ok st2 ∧
    step (extract_soft_skills w) st2 id2 = Ok st21 ∧
    skills st12 = Some Sa ∧ skills st21 = Some Sb ∧
    hard Sa ≡ₚ hard Sb ∧ soft Sa ≡ₚ soft Sb ∧ both Sa = both Sb.
Proof.
  intros HS Hads. unfold step.
  rewrite (extract_soft_skills_spec w st id1 S ads ad HS Hads).
  rewrite (extract_hard_skills_spec w st id1 S ads ad HS Hads).
  cbn [mbind result_bind mret result_ret].
  eexists _, _, _, _. eexists _, _. split; [reflexivity|].
  match goal with |- context [extract_hard_skills w ?s id2] => set (st1 := s) end.
  rewrite (extract_hard_skills_spec w st1 id2 _ ads ad eq_refl Hads).
  cbn [mbind result_bind mret result_ret]. split; [reflexivity|].
  split; [reflexivity|].
  match goal with |- context [extract_soft_skills w ?s id2] => set (st2 := s) end.
  rewrite (extract_soft_skills_spec w st2 id2 _ ads ad eq_refl Hads).
  cbn [mbind result_bind mret result_ret]. split; [reflexivity|].
  split; [reflexivity|]. split; [reflexivity|]. by cbn.
Qed.

Lemma length_py_list_set_ge (old labels : list string) :
  size (py_set old) ≤ length (py_list (py_set (old ++ labels))) ∧
  ((∀ x, x ∈ labels → x ∈ old) →
   length (py_list (py_set (old ++ labels))) = size (py_set old)).
Proof.
  unfold py_list, py_set. rewrite list_to_set_app_L.
  change (length (elements ?X)) with (size X). split.
  - apply subseteq_size, union_subseteq_l.
  - intros Hsub. f_equal. rewrite (comm_L (∪)). apply subseteq_union_1_L.
    intros x. rewrite !elem_of_list_to_set. apply Hsub.
Qed.

(** X4. The number that an extraction tool reports as "new" skills is the
    size of the whole category after the union: it is never below the
    number of distinct skills stored before, and it is that number when the
    last advertisement yields no label that is new. *)
Theorem extraction_reports_total st id S ads ad :
  skills st = Some S → job_ads st = Some (ads ++ [ad]) →
  (∃ c S1,
     extract_soft_skills w st id = Ok c ∧ u_skills c = Some (Some S1) ∧
     u_messages c = [extract_message (length (soft S1)) "soft" id] ∧
     size (py_set (soft S)) ≤ length (soft S1) ∧
     ((∀ x, x ∈ soft_labels w (ad_text ad) → x ∈ soft S) →
      length (soft S1) = size (py_set (soft S)))) ∧
  (∃ c S1,
     extract_hard_skills w st id = Ok c ∧ u_skills c = Some (Some S1) ∧
     u_messages c = [extract_message (length (hard S1)) "hard" id] ∧
     size (py_set (hard S)) ≤ length (hard S1) ∧
     ((∀ x, x ∈ hard_labels w (ad_text ad) → x ∈ hard S) →
      length (hard S1) = size (py_set (hard S)))).
Proof.
  intros HS Hads. split.
  - rewrite (extract_soft_skills_spec w st id S ads ad HS Hads).
    eexists _, _. split; [reflexivity|]. split; [reflexivity|].
    split; [reflexivity|]. cbn [soft]. apply length_py_list_set_ge.
  - rewrite (extract_hard_skills_spec w st id S ads ad HS Hads).
    eexists _, _. split; [reflexivity|]. split; [reflexivity|].
    split; [reflexivity|]. cbn [hard]. apply length_py_list_set_ge.
Qed.

(** X5. A label that the soft-skill extraction obtains from the last
    advertisement and that is already a hard skill is moved to [both] by the
    reconciliation that follows: it ends in neither [hard] nor [soft]. *)
Theorem extracted_overlap_reconciled st id1 id2 S ads ad x :
  skills st = Some S → job_ads st = Some (ads ++ [ad]) →
  x ∈ soft_labels w (ad_text ad) → x ∈ hard S →
  ∃ st1 st2 S2,
    step (extract_soft_skills w) st id1 = Ok st1 ∧
    step check_for_bothskills st1 id2 = Ok st2 ∧
    skills st2 = Some S2 ∧
    x ∈ both S2 ∧ (x ∉ hard S2) ∧ (x ∉ soft S2).
Proof.
  intros HS Hads Hx Hh. unfold step at 1.
  rewrite (extract_soft_skills_spec w st id1 S ads ad HS Hads).
  cbn [mbind result_bind mret result_ret].
  eexists _, _, _. split; [reflexivity|].
  match goal with |- context [step check_for_bothskills ?s id2] => set (st1 := s) end.
  set (S1 := {| hard := hard S;
                soft := py_list (py_set (soft S ++ soft_labels w (ad_text ad)));
                both := both S |}).
  assert (skills st1 = Some S1) as HS1 by reflexivity.
  assert (x ∈ soft S1) as Hs1 by (apply elem_of_py_list_set; by right).
  assert (py_set (hard S1) ∩ py_set (soft S1) ≠ ∅) as HI.
  { intros HI. by apply (proj1 (overlap_empty_iff S1) HI x). }
  unfold step. rewrite (check_for_bothskills_overlap _ _ _ HS1 HI).
  cbn [mbind result_bind mret result_ret]. split; [reflexivity|].
  split; [reflexivity|]. cbn [hard soft both].
  rewrite !elem_of_py_list.
  rewrite !elem_of_difference, !elem_of_intersection, !elem_of_py_set.
  change (hard S1) with (hard S). tauto.
Qed.

End ExtractionMore.

Lemma extraction_tools_commute_witness :
  ∃ st1 st12 st2 st21 Sa Sb,
    step (SkillUtils.extract_soft_skills Samples.world0) Samples.state0 "call-1"
      = Ok st1 ∧
    step (SkillUtils.extract_hard_skills Samples.world0) st1 "call-2" = Ok st12 ∧
    step (SkillUtils.extract_hard_skills Samples.world0) Samples.state0 "call-1"
      = Ok st2 ∧
    step (SkillUtils.extract_soft_skills Samples.world0) st2 "call-2" = Ok st21 ∧
    skills st12 = Some Sa ∧ skills st21 = Some Sb ∧
    hard Sa ≡ₚ hard Sb ∧ soft Sa ≡ₚ soft Sb ∧ both Sa = both Sb.
Proof.
  apply (extraction_tools_commute Samples.world0 Samples.state0 "call-1" "call-2"
           Samples.skills0 [ {| ad_text := "first ad" |} ] {| ad_text := "second ad" |});
    reflexivity.
Defined.

Lemma extracted_overlap_reconciled_witness :
  ∃ st1 st2 S2,
    step (SkillUtils.extract_soft_skills MoreSamples.world_sql) Samples.state0 "call-1"
      = Ok st1 ∧
    step SkillUtils.check_for_bothskills st1 "call-2" = Ok st2 ∧
    skills st2 = Some S2 ∧
    "sql" ∈ both S2 ∧ ("sql" ∉ hard S2) ∧ ("sql" ∉ soft S2).
Proof.
  apply (extracted_overlap_reconciled MoreSamples.world_sql Samples.state0
           "call-1" "call-2" Samples.skills0
           [ {| ad_text := "first ad" |} ] {| ad_text := "second ad" |} "sql").
  - reflexivity.
  - reflexivity.
  - vm_compute. left.
  - right. left.
Defined.

Lemma extraction_reports_total_witness :
  (∃ c S1,
     SkillUtils.extract_soft_skills Samples.world0 Samples.state0 "call-1" = Ok c ∧
     u_skills c = Some (Some S1) ∧
     u_messages c = [SkillUtils.extract_message (length (soft S1)) "soft" "call-1"] ∧
     size (SkillUtils.py_set (soft Samples.skills0)) ≤ length (soft S1) ∧
     ((∀ x, x ∈ Readings.soft_labels Samples.world0 "second ad" →
            x ∈ soft Samples.skills0) →
      length (soft S1) = size (SkillUtils.py_set (soft Samples.skills0)))) ∧
  (∃ c S1,
     SkillUtils.extract_hard_skills Samples.world0 Samples.state0 "call-1" = Ok c ∧
     u_skills c = Some (Some S1) ∧
     u_messages c = [SkillUtils.extract_message (length (hard S1)) "hard" "call-1"] ∧
     size (SkillUtils.py_set (hard Samples.skills0)) ≤ length (hard S1) ∧
     ((∀ x, x ∈ Readings.hard_labels Samples.world0 "second ad" →
            x ∈ hard Samples.skills0) →
      length (hard S1) = size (SkillUtils.py_set (hard Samples.skills0)))).
Proof.
  apply (extraction_reports_total Samples.world0 Samples.state0 "call-1"
           Samples.skills0 [ {| ad_text := "first ad" |} ] {| ad_text := "second ad" |});
    reflexivity.
Defined.

(** ** Normalisation is stable *)
Section NormaliseMore.
Import SkillUtils PyStr.

Lemma chars_app (s t : string) : chars (s +:+ t) = chars s ++ chars t.
Proof.
  induction s as [|c s IH]; [done|].
  rewrite append_cons. cbn [String.list_ascii_of_string app]. by rewrite IH.
Qed.

Lemma append_assoc (s t u : string) : (s +:+ t) +:+ u = s +:+ (t +:+ u).
Proof. induction s as [|c s IH]; [done|]. by rewrite !append_cons, IH. Qed.

Lemma underscore_contains s : "_"%char ∈ chars s → contains "_" s = true.
Proof.
  induction s as [|c s IH]; cbn [String.list_ascii_of_string].
  - intros H. by apply elem_of_nil in H.
  - intros [<-|Hin]%elem_of_cons.
    + cbn [contains]. apply orb_true_iff. left. by destruct s.
    + cbn [contains]. apply orb_true_iff. right. by apply IH.
Qed.

Lemma lower_char_facts c :
  (lower_char c = "_"%char ↔ c = "_"%char) ∧
  lower_char (lower_char c) = lower_char c.
Proof.
  destruct c as [[] [] [] [] [] [] [] []]; vm_compute; split;
    (split; intros H; (reflexivity || discriminate H)) || reflexivity.
Qed.

Lemma underscore_lower s : "_"%char ∈ chars (lower s) ↔ "_"%char ∈ chars s.
Proof.
  induction s as [|c s IH]; [done|].
  cbn [lower String.list_ascii_of_string]. rewrite !elem_of_cons, IH.
  destruct (lower_char_facts c) as [Hc _].
  split; (intros [H|H]; [left|by right]); symmetry; apply Hc; by symmetry.
Qed.

Lemma lower_lower s : lower (lower s) = lower s.
Proof.
  induction s as [|c s IH]; [done|]. cbn [lower].
  destruct (lower_char_facts c) as [_ ->]. by rewrite IH.
Qed.

Lemma lower_app s t : lower (s +:+ t) = lower s +:+ lower t.
Proof.
  induction s as [|c s IH]; [done|].
  rewrite append_cons. cbn [lower]. by rewrite IH, append_cons.
Qed.

Lemma lower_join l : lower (join " " l) = join " " (map lower l).
Proof.
  induction l as [|w l IH]; [done|]. destruct l as [|w' l]; [done|].
  change (join " " (w :: w' :: l)) with (w +:+ " " +:+ join " " (w' :: l)).
  change (join " " (map lower (w :: w' :: l)))
    with (lower w +:+ " " +:+ join " " (map lower (w' :: l))).
  by rewrite !lower_app, IH.
Qed.

Lemma lower_word w : is_word w → is_word (lower w).
Proof.
  intros [Hne Hw]. split; [by destruct w|].
  intros c Hc. induction w as [|d w IH]; cbn in Hc.
  - by apply elem_of_nil in Hc.
  - apply elem_of_cons in Hc as [->|Hc].
    + destruct (lower_char_space d) as (-> & _). apply Hw. cbn. left.
    + destruct w as [|e w]; [by apply elem_of_nil in Hc|].
      apply IH; [done| |done]. intros e' He'. apply Hw. cbn. by right.
Qed.

(** Reading a whitespace-free run extends the word being read. *)
Lemma split_go_run cur w rest :
  (∀ c, c ∈ chars w → is_space c = false) →
  split_go cur (w +:+ rest) = split_go (cur +:+ w) rest.
Proof.
  revert cur. induction w as [|c w IH]; intros cur Hw.
  - by rewrite append_empty.
  - rewrite append_cons. cbn [split_go].
    rewrite (Hw c) by (cbn; left).
    rewrite IH by (intros d Hd; apply Hw; cbn; by right).
    by rewrite append_assoc.
Qed.

(** Splitting what [join] built from words gives the words back. *)
Lemma split_join l : Forall is_word l → split (join " " l) = l.
Proof.
  unfold split. induction l as [|w l IH]; [done|]. intros Hall.
  apply Forall_cons in Hall as [[Hne Hw] Hall]. destruct l as [|w' l].
  - cbn [join]. rewrite <- (append_empty w) at 1.
    rewrite split_go_run by done. cbn [split_go String.append].
    by rewrite decide_False.
  - change (join " " (w :: w' :: l)) with (w +:+ String " " (join " " (w' :: l))).
    rewrite split_go_run by done. cbn [split_go String.append].
    rewrite decide_False by done. by rewrite IH.
Qed.

Lemma split_go_member c cur s :
  is_space c = false → c ∈ chars cur ∨ c ∈ chars s →
  ∃ w, w ∈ split_go cur s ∧ c ∈ chars w.
Proof.
  intros Hc. revert cur. induction s as [|d s IH]; intros cur Hin; cbn [split_go].
  - destruct Hin as [Hin|Hin]; [|by apply elem_of_nil in Hin].
    destruct (decide (cur = "")) as [->|]; [by apply elem_of_nil in Hin|].
    exists cur. split; [left|done].
  - destruct (is_space d) eqn:Hd.
    + destruct Hin as [Hin|Hin].
      * destruct (decide (cur = "")) as [->|]; [by apply elem_of_nil in Hin|].
        exists cur. split; [left|done].
      * cbn in Hin. apply elem_of_cons in Hin as [->|Hin]; [congruence|].
        destruct (IH "") as (w & Hw & Hcw); [by right|].
        exists w. split; [|done].
        destruct (decide (cur = "")); [done|by right].
    + apply IH. rewrite chars_snoc, elem_of_app, list_elem_of_singleton.
      cbn in Hin. rewrite elem_of_cons in Hin. tauto.
Qed.

Lemma join_member c sep w l :
  w ∈ l → c ∈ chars w → c ∈ chars (join sep l).
Proof.
  intros Hw Hc. induction l as [|v l IH]; [by apply elem_of_nil in Hw|].
  destruct l as [|v' l].
  - apply list_elem_of_singleton in Hw as ->. done.
  - change (join sep (v :: v' :: l)) with (v +:+ sep +:+ join sep (v' :: l)).
    rewrite !chars_app, !elem_of_app.
    apply elem_of_cons in Hw as [->|Hw]; [by left|]. right. right. by apply IH.
Qed.

(** X6. Normalising a label that is already normalised changes nothing. *)
Theorem normalise_idempotent skill : normalise (normalise skill) = normalise skill.
Proof.
  unfold normalise at 2 3. destruct (contains "_" skill) eqn:Hu.
  - assert (Forall is_word (split skill)) as Hwords.
    { apply split_go_words. intros c Hc. by apply elem_of_nil in Hc. }
    assert (contains "_" (lower (join " " (split skill))) = true) as Hu'.
    { apply underscore_contains, underscore_lower.
      apply contains_underscore in Hu.
      destruct (split_go_member "_" "" skill) as (w & Hw & Hcw); [done|by right|].
      by apply (join_member _ _ w). }
    unfold normalise. rewrite Hu'. rewrite (lower_join (split skill)).
    rewrite split_join.
    + by rewrite <- lower_join, lower_lower.
    + apply Forall_fmap. eapply Forall_impl; [exact Hwords|]. apply lower_word.
  - assert (contains "_" (lower skill) = false) as Hu'.
    { destruct (contains "_" (lower skill)) eqn:E; [|done].
      apply contains_underscore in E. apply (proj1 (underscore_lower skill)) in E.
      apply underscore_contains in E. congruence. }
    unfold normalise. by rewrite Hu', lower_lower.
Qed.

End NormaliseMore.

(** ** The few-shot examples *)
Section Examples.
Import SkillUtils Notions.

(** X7. The examples handed to the extraction collaborator are the
    extractions of the corpus, one example per extraction: each example
    holds one extraction together with the text of its record, no extraction
    is left out, and records without extractions give no example. *)
Theorem build_examples_flattens (json : list ExampleData) :
  length (build_examples json) = extraction_count json ∧
  (∀ e, e ∈ build_examples json ↔
        ∃ record x, record ∈ json ∧ x ∈ ex_extractions record ∧
          e = {| ex_text := ex_text record; ex_extractions := [x] |}).
Proof.
  unfold build_examples, extraction_count. split.
  - induction json as [|r json IH]; [done|].
    cbn [flat_map map sum_list sum_list_with].
    by rewrite length_app, length_map, IH.
  - intros e. rewrite list_elem_of_In, in_flat_map. split.
    + intros (r & Hr & He). apply in_map_iff in He as (x & <- & Hx).
      exists r, x. by rewrite !list_elem_of_In.
    + intros (r & x & Hr & Hx & ->). exists r.
      rewrite <- list_elem_of_In. split; [done|].
      apply in_map_iff. exists x. by rewrite <- list_elem_of_In.
Qed.

End Examples.

(** ** Requirements and responsibilities *)
Section ReqAndResMore.
Import ReqAndRes Notions.
Context (w : World).

Lemma last_answer_loop {A} (f : string → A) (ads : list string) (ad : string) init :
  fold_left (λ _ a, Some (f a)) (ads ++ [ad]) init = Some (f ad).
Proof. by rewrite fold_left_app. Qed.

Lemma extract_requirements_spec st id ads ad :
  job_ads st = Some (ads ++ [ad]) →
  extract_requirements w st id =
    Ok {| u_skills := None;
          u_requirements := Some (chain_requirements w (ad_text ad));
          u_responsibilities := None; u_evaluation := None;
          u_messages :=
            [extracted_message (length (chain_requirements w (ad_text ad))) id] |}.
Proof.
  intros Hads. unfold extract_requirements. rewrite Hads.
  change (default [] (Some (ads ++ [ad]))) with (ads ++ [ad]).
  destruct (map_snoc_not_nil ad_text ads ad) as [-> Hne].
  destruct (ads ++ [ad]) as [|a l]; [done|].
  by rewrite last_answer_loop.
Qed.

Lemma extract_responsibilities_spec st id ads ad :
  job_ads st = Some (ads ++ [ad]) →
  extract_responsibilities w st id =
    Ok {| u_skills := None; u_requirements := None;
          u_responsibilities := Some (chain_responsibilities w (ad_text ad));
          u_evaluation := None;
          u_messages :=
            [extracted_message (length (chain_responsibilities w (ad_text ad))) id] |}.
Proof.
  intros Hads. unfold extract_responsibilities. rewrite Hads.
  change (default [] (Some (ads ++ [ad]))) with (ads ++ [ad]).
  destruct (map_snoc_not_nil ad_text ads ad) as [-> Hne].
  destruct (ads ++ [ad]) as [|a l]; [done|].
  by rewrite last_answer_loop.
Qed.

(** X8. With at least one advertisement, the requirement tool and the
    responsibility tool return normally and replace their list by the
    collaborator's answer for the last advertisement, whatever the list held
    before; the logged number is the length of that answer, and the other
    extracted data stay as they were. *)
Theorem requirement_tools_replace st id ads ad :
  job_ads st = Some (ads ++ [ad]) →
  (∃ st',
     step (extract_requirements w) st id = Ok st' ∧
     requirements st' = Some (chain_requirements w (ad_text ad)) ∧
     messages st' = messages st ++
       [extracted_message (length (chain_requirements w (ad_text ad))) id] ∧
     responsibilities st' = responsibilities st ∧ skills st' = skills st) ∧
  (∃ st',
     step (extract_responsibilities w) st id = Ok st' ∧
     responsibilities st' = Some (chain_responsibilities w (ad_text ad)) ∧
     messages st' = messages st ++
       [extracted_message (length (chain_responsibilities w (ad_text ad))) id] ∧
     requirements st' = requirements st ∧ skills st' = skills st).
Proof.
  intros Hads. unfold step.
  rewrite (extract_requirements_spec st id ads ad Hads).
  rewrite (extract_responsibilities_spec st id ads ad Hads).
  split; by eexists.
Qed.

End ReqAndResMore.

Lemma requirement_tools_replace_witness :
  (∃ st',
     step (ReqAndRes.extract_requirements Samples.world0) Samples.state0 "call-1"
       = Ok st' ∧
     requirements st' = Some (chain_requirements Samples.world0 "second ad") ∧
     messages st' = messages Samples.state0 ++
       [ReqAndRes.extracted_message
          (length (chain_requirements Samples.world0 "second ad")) "call-1"] ∧
     responsibilities st' = responsibilities Samples.state0 ∧
     skills st' = skills Samples.state0) ∧
  (∃ st',
     step (ReqAndRes.extract_responsibilities Samples.world0) Samples.state0 "call-1"
       = Ok st' ∧
     responsibilities st' = Some (chain_responsibilities Samples.world0 "second ad") ∧
     messages st' = messages Samples.state0 ++
       [ReqAndRes.extracted_message
          (length (chain_responsibilities Samples.world0 "second ad")) "call-1"] ∧
     requirements st' = requirements Samples.state0 ∧
     skills st' = skills Samples.state0).
Proof.
  apply (requirement_tools_replace Samples.world0 Samples.state0 "call-1"
           [ {| ad_text := "first ad" |} ] {| ad_text := "second ad" |}).
  reflexivity.
Defined.

(** ** Each tool writes its own field *)
Section Scope.
Import SkillUtils ReqAndRes Evaluation Notions.
Context (w : World).

(** X9. Whenever a tool returns, its patch logs exactly one message, tagged
    with the identifier of the call, and writes no field but its own: the
    three skill tools write at most [skills], the requirement tool at most
    [requirements], the responsibility tool at most [responsibilities] and
    the evaluation tool at most [evaluation]. *)
Theorem patch_scope st id :
  on_return (extract_soft_skills w st id)
    (λ c, one_message c id ∧ u_requirements c = None ∧
          u_responsibilities c = None ∧ u_evaluation c = None) ∧
  on_return (extract_hard_skills w st id)
    (λ c, one_message c id ∧ u_requirements c = None ∧
          u_responsibilities c = None ∧ u_evaluation c = None) ∧
  on_return (check_for_bothskills st id)
    (λ c, one_message c id ∧ u_requirements c = None ∧
          u_responsibilities c = None ∧ u_evaluation c = None) ∧
  on_return (extract_requirements w st id)
    (λ c, one_message c id ∧ u_skills c = None ∧
          u_responsibilities c = None ∧ u_evaluation c = None) ∧
  on_return (extract_responsibilities w st id)
    (λ c, one_message c id ∧ u_skills c = None ∧
          u_requirements c = None ∧ u_evaluation c = None) ∧
  on_return (evaluate_correctness w st id)
    (λ c, one_message c id ∧ u_skills c = None ∧
          u_requirements c = None ∧ u_responsibilities c = None).
Proof.
  unfold one_message. repeat split.
  - unfold extract_soft_skills. destruct (default [] (job_ads st)); cbn; [eauto 10|].
    destruct (updated_skills _); cbn; eauto 10.
  - unfold extract_hard_skills. destruct (default [] (job_ads st)); cbn; [eauto 10|].
    destruct (updated_skills _); cbn; eauto 10.
  - unfold check_for_bothskills. destruct (skills st); [|done].
    destruct (bool_decide _); [|cbn; eauto 10].
    destruct (move_loop _ _) as [[[b1 h1] g1]|]; cbn; eauto 10.
  - unfold extract_requirements. destruct (default [] (job_ads st)); cbn; [eauto 10|].
    destruct (fold_left _ _ _); cbn; eauto 10.
  - unfold extract_responsibilities.
    destruct (default [] (job_ads st)); cbn; [eauto 10|].
    destruct (fold_left _ _ _); cbn; eauto 10.
  - unfold evaluate_correctness.
    destruct (default [] (job_ads st)); cbn; eauto 10.
Qed.

End Scope.

(** ** Evaluation *)
Section EvaluationMore.
Import Evaluation Readings Notions.
Context (w : World).

(** Either there is no advertisement and nothing is evaluated, or the
    mapping holds what the last advertisement gave. *)
Lemma evaluate_correctness_cases st id :
  (default [] (job_ads st) = [] ∧
   evaluate_correctness w st id = Ok (SkillUtils.no_job_ads id)) ∨
  (∃ ads ad c m,
     job_ads st = Some (ads ++ [ad]) ∧
     evaluate_correctness w st id = Ok c ∧ u_evaluation c = Some m ∧
     ∀ key, m !! key = entry_for w st (ad_text ad) key).
Proof.
  destruct (default [] (job_ads st)) as [|a l] eqn:Hads.
  - left. split; [done|]. unfold evaluate_correctness. by rewrite Hads.
  - right. destruct (exists_last (l := a :: l)) as (ads & ad & Hsnoc); [done|].
    assert (job_ads st = Some (ads ++ [ad])) as Hjobs.
    { destruct (job_ads st); cbn in Hads; [by rewrite Hads, Hsnoc|done]. }
    destruct (evaluate_correctness_spec w st id ads ad Hjobs) as (c & m & Hc & Hm & Hl).
    by exists ads, ad, c, m.
Qed.

(** X10. The evaluation mapping has no key besides ["skills"],
    ["requirements"] and ["responsibilities"]. *)
Theorem evaluation_keys st id :
  on_return (evaluate_correctness w st id)
    (λ c, ∀ m key, u_evaluation c = Some m → is_Some (m !! key) → key ∈ tasks).
Proof.
  destruct (evaluate_correctness_cases st id)
    as [[_ ->]|(ads & ad & c & m & _ & -> & Hm & Hlook)]; cbn [on_return].
  - by intros m key [=].
  - intros m' key Hm'. rewrite Hm in Hm'. injection Hm' as <-.
    rewrite Hlook. intros Hsome. destruct (decide (key ∈ tasks)) as [|Hout]; [done|].
    rewrite (entry_for_other w st _ key Hout) in Hsome. by destruct Hsome.
Qed.

Lemma skill_results_names ad S :
  map fst (skill_results w ad S) = subtype_names S.
Proof.
  unfold skill_results, subtype_names. cbn [zip zip_with fold_left].
  unfold skill_body. by destruct (hard S), (soft S), (both S).
Qed.

(** X11. When the state holds a skill set, the evaluation always writes a
    ["skills"] entry: it lists the non-empty sub-types in the order hard,
    soft, both, and it is the empty list when all three are empty. *)
Theorem skills_entry_subtypes st id S ads ad :
  skills st = Some S → job_ads st = Some (ads ++ [ad]) →
  ∃ c m l,
    evaluate_correctness w st id = Ok c ∧ u_evaluation c = Some m ∧
    m !! "skills" = Some (SkillEntries l) ∧
    map fst l = subtype_names S ∧
    (hard S = [] → soft S = [] → both S = [] → l = []).
Proof.
  intros HS Hads.
  destruct (evaluate_correctness_spec w st id ads ad Hads) as (c & m & Hc & Hm & Hl).
  exists c, m, (skill_results w (ad_text ad) S).
  split; [done|]. split; [done|]. split; [|split].
  - by rewrite Hl, entry_for_skills, HS.
  - apply skill_results_names.
  - intros Hh Hs Hb. unfold skill_results. by rewrite Hh, Hs, Hb.
Qed.

(** Every stored result was judged on one of the lists of the state. *)
Lemma entry_for_items st ad key e r :
  entry_for w st ad key = Some e → r ∈ entry_results e →
  ∃ items task, items ∈ state_lists st ∧ r = judge w ad items task.
Proof.
  unfold entry_for, state_lists. destruct (decide (key = "skills")).
  - destruct (skills st) as [S|]; [|done]. intros [= <-]. cbn [entry_results].
    unfold skill_results. cbn [zip zip_with fold_left]. unfold skill_body.
    destruct (hard S) eqn:Hh, (soft S) eqn:Hs, (both S) eqn:Hb; cbn [app map snd];
      intros Hr;
      repeat (apply elem_of_cons in Hr as [->|Hr];
              [eexists _, _; split; [|reflexivity]; set_solver|]);
      by apply elem_of_nil in Hr.
  - unfold state_get_list.
    destruct (decide (key = "requirements")).
    + destruct (requirements st) as [[|x l]|]; try done.
      intros [= <-]. cbn [entry_results]. intros ->%list_elem_of_singleton.
      eexists _, _. split; [|reflexivity]. set_solver.
    + destruct (decide (key = "responsibilities")); [|done].
      destruct (responsibilities st) as [[|x l]|]; try done.
      intros [= <-]. cbn [entry_results]. intros ->%list_elem_of_singleton.
      eexists _, _. split; [|reflexivity]. set_solver.
Qed.

(** X12. If the judge answers every request with one reasoning and one
    score per item, then every stored result is aligned with a list of the
    state: its reasoning and its scores are as many as the items of that
    list. *)
Theorem evaluation_aligned st id :
  (∀ rq, length (reasoning (llm_invoke w rq)) = length (rq_extracted_outputs rq) ∧
         length (score (llm_invoke w rq)) = length (rq_extracted_outputs rq)) →
  on_return (evaluate_correctness w st id)
    (λ c, ∀ m key e r,
       u_evaluation c = Some m → m !! key = Some e → r ∈ entry_results e →
       ∃ items, items ∈ state_lists st ∧
         length (reasoning r) = length items ∧ length (score r) = length items).
Proof.
  intros Hjudge.
  destruct (evaluate_correctness_cases st id)
    as [[_ ->]|(ads & ad & c & m & _ & -> & Hm & Hlook)]; cbn [on_return].
  - by intros m key e r [=].
  - intros m' key e r Hm' He Hr. rewrite Hm in Hm'. injection Hm' as <-.
    rewrite Hlook in He.
    destruct (entry_for_items _ _ _ _ _ He Hr) as (items & task & Hin & ->).
    exists items. split; [done|]. cbn [judge reasoning score].
    unfold normalise_scores. rewrite length_map.
    apply (Hjudge {| rq_job_ad := ad_text ad; rq_extracted_outputs := items;
                     rq_task := task; rq_score_min := fst score_range;
                     rq_score_max := snd score_range |}).
Qed.

End EvaluationMore.

Lemma skills_entry_subtypes_witness :
  ∃ c m l,
    Evaluation.evaluate_correctness Samples.world0 Samples.state0 "call-1" = Ok c ∧
    u_evaluation c = Some m ∧
    m !! "skills" = Some (SkillEntries l) ∧
    map fst l = Notions.subtype_names Samples.skills0 ∧
    (hard Samples.skills0 = [] → soft Samples.skills0 = [] →
     both Samples.skills0 = [] → l = []).
Proof.
  apply (skills_entry_subtypes Samples.world0 Samples.state0 "call-1" Samples.skills0
           [ {| ad_text := "first ad" |} ] {| ad_text := "second ad" |});
    reflexivity.
Defined.

Lemma evaluation_aligned_witness :
  Notions.on_return
    (Evaluation.evaluate_correctness Samples.world0 Samples.state0 "call-1")
    (λ c, ∀ m key e r,
       u_evaluation c = Some m → m !! key = Some e → r ∈ Readings.entry_results e →
       ∃ items, items ∈ Notions.state_lists Samples.state0 ∧
         length (reasoning r) = length items ∧ length (score r) = length items).
Proof.
  apply (evaluation_aligned Samples.world0 Samples.state0 "call-1").
  intros rq. simpl. by rewrite !length_map.
Defined.

(** ** Writing and reading the todo list *)
Section TodosMore.
Import TodoUtils TodoUpdates PyStr.
Context (str_of_todos : list Todo → string).

(** A string that starts with a character that is no whitespace. *)
Lemma pretty_N_go_head (x : N) (s : string) :
  (∃ c s', s = String c s' ∧ is_space c = false) →
  ∃ c s', pretty_N_go x s = String c s' ∧ is_space c = false.
Proof.
  revert s. induction (N.lt_wf_0 x) as [x _ IH]; intros s Hs.
  destruct (decide (x = 0)%N) as [->|Hx].
  - by rewrite pretty_N_go_0.
  - rewrite pretty_N_go_step by lia. apply IH; [apply N.div_lt; lia|].
    eexists _, _. split; [reflexivity|].
    unfold pretty_N_char. by repeat case_match.
Qed.

Lemma of_nat_head (n : nat) :
  ∃ c s', of_nat n = String c s' ∧ is_space c = false.
Proof.
  unfold of_nat, pretty, pretty_nat, pretty, pretty_N.
  destruct (decide (N.of_nat n = 0)%N) as [|Hn]; [by eexists _, _|].
  rewrite pretty_N_go_step by lia. apply pretty_N_go_head.
  eexists _, _. split; [reflexivity|].
  unfold pretty_N_char. by repeat case_match.
Qed.

Lemma append_not_empty (s t : string) : t ≠ "" → s +:+ t ≠ "".
Proof. intros Ht. destruct s; [done|]. by rewrite append_cons. Qed.

(** Stripping on the right only concerns the end of a string. *)
Lemma rstrip_app (s t : string) :
  rstrip t ≠ "" → rstrip (s +:+ t) = s +:+ rstrip t ∧ rstrip (s +:+ t) ≠ "".
Proof.
  intros Ht. induction s as [|c s [IH Hne]]; [done|].
  rewrite !append_cons. cbn [rstrip]. rewrite IH in *.
  by destruct (s +:+ rstrip t).
Qed.

Lemma lstrip_head c (s t : string) :
  is_space c = false → lstrip (String c s +:+ t) = String c s +:+ t.
Proof. intros Hc. rewrite append_cons. cbn [lstrip]. by rewrite Hc. Qed.

Lemma rstrip_status_line (st : Status) :
  rstrip (status_str st +:+ nl) = status_str st.
Proof. by destruct st. Qed.

(** Stripping a rendered line removes the line feed and nothing else. *)
Lemma strip_todo_line (n : nat) (t : Todo) :
  strip (todo_line n t) =
    of_nat n +:+ ". " +:+ status_emoji (status t) +:+ " " +:+ content t +:+ ": " +:+
    status_str (status t).
Proof.
  unfold strip, todo_line.
  destruct (of_nat_head n) as (c & s' & -> & Hc).
  rewrite (lstrip_head _ _ _ Hc).
  assert (rstrip (status_str (status t) +:+ nl) ≠ "") as N5
    by (rewrite rstrip_status_line; by destruct (status t)).
  destruct (rstrip_app ": " _ N5) as [E4 N4].
  destruct (rstrip_app (content t) _ N4) as [E3 N3].
  destruct (rstrip_app " " _ N3) as [E2 N2].
  destruct (rstrip_app (status_emoji (status t)) _ N2) as [E1 N1].
  destruct (rstrip_app ". " _ N1) as [E0 N0].
  destruct (rstrip_app (String c s') _ N0) as [E _].
  by rewrite E, E0, E1, E2, E3, E4, rstrip_status_line.
Qed.

(** X14. Reading the todo list right after writing it: after an empty list
    was written the "no todos" message is returned, whatever was stored
    before; after a non-empty list was written the rendering is the line of
    its last item, numbered with the length of the list, without the header
    and without a final line feed. *)
Theorem write_then_read_todos st id id' l t :
  read_todos (apply_full_update st (write_todos str_of_todos [] id)) id'
    = "Currently, there aren't any todos in the list." ∧
  read_todos (apply_full_update st (write_todos str_of_todos (l ++ [t]) id)) id'
    = of_nat (S (length l)) +:+ ". " +:+ status_emoji (status t) +:+ " " +:+
      content t +:+ ": " +:+ status_str (status t).
Proof.
  split; [done|].
  rewrite (read_todos_last _ id' l t) by done. apply strip_todo_line.
Qed.

End TodosMore.

(** ** Supplying the advertisements *)
Section ContentMore.
Import TodoUpdates SkillUtils ReqAndRes Evaluation.
Context (w : World) (str_of_job_ads : list JobAdContent → string).

(** X15. The advertisements written by [update_content] replace the stored
    ones and are what the next tool reads: after an empty list was written
    every extraction tool and the evaluation tool only report that no ad was
    found; after a non-empty list was written the requirement and the
    responsibility tool store the collaborator's answer for its last ad. *)
Theorem update_content_then_tools st id id' ads ad :
  Forall (λ tool : ReActConversationState → string → result Command,
            tool (apply_full_update st (update_content str_of_job_ads [] id)) id'
            = Ok (no_job_ads id'))
    [ extract_soft_skills w; extract_hard_skills w;
      extract_requirements w; extract_responsibilities w;
      evaluate_correctness w ] ∧
  ∃ st1,
    st1 = apply_full_update st (update_content str_of_job_ads (ads ++ [ad]) id) ∧
    job_ads st1 = Some (ads ++ [ad]) ∧
    skills st1 = skills st ∧ todos st1 = todos st ∧
    requirements st1 = requirements st ∧
    responsibilities st1 = responsibilities st ∧
    (∃ st2, step (extract_requirements w) st1 id' = Ok st2 ∧
            requirements st2 = Some (chain_requirements w (ad_text ad))) ∧
    (∃ st2, step (extract_responsibilities w) st1 id' = Ok st2 ∧
            responsibilities st2 = Some (chain_responsibilities w (ad_text ad))).
Proof.
  split; [by repeat constructor|].
  eexists. split; [reflexivity|].
  match goal with |- context [job_ads ?s = _] => set (st1 := s) end.
  repeat split; unfold step.
  - rewrite (extract_requirements_spec w st1 id' ads ad eq_refl). by eexists.
  - rewrite (extract_responsibilities_spec w st1 id' ads ad eq_refl). by eexists.
Qed.

End ContentMore.
